(** * NTLMRawUnHide: the signature scanner and hash assembler

    A shallow embedding of [NTLMRawUnHide.py]: the byte-level helpers
    ([decode_int], [decode_string], [bytes.find], slicing, [bytes.hex]) and
    the scanning loop of [searchCaptureFile], followed by the properties of
    the scanner, the field decoder and the pending-challenge state. *)

From Stdlib Require Import List ZArith NArith Bool Lia String Ascii Sorted.
From Stdlib Require Import Strings.Byte.
Import ListNotations.

Local Open Scope Z_scope.

(** ** Python values *)

(** A [bytes] object. *)
Definition bytes := list byte.

(** A [str] object: a sequence of Unicode code points. *)
Definition pystr := list N.

(** A [str] literal of the source (all of them are ASCII). *)
Definition lit (s : string) : pystr :=
  map N_of_ascii (list_ascii_of_string s).

(** The exceptions the scan can raise. *)
Inductive exn :=
| UnicodeDecodeError
| NameError.

Inductive result (A : Type) :=
| Ok (a : A)
| Raise (e : exn).
Arguments Ok {A} a.
Arguments Raise {A} e.

Definition len (b : bytes) : Z := Z.of_nat (List.length b).

(** ** Slicing: [b[start:stop]]

    Negative indices count from the end, and both indices are clamped to the
    object: a slice never raises. *)
Definition adjust_index (i n : Z) : Z :=
  if i <? 0 then (if i + n <? 0 then 0 else i + n)
  else if i >=? n then n else i.

Definition slice (b : bytes) (start stop : Z) : bytes :=
  let n := len b in
  let s := adjust_index start n in
  let e := adjust_index stop n in
  if s <? e then firstn (Z.to_nat (e - s)) (skipn (Z.to_nat s) b) else [].

(** ** [bytes.find(sub, start[, end])] *)

Fixpoint starts_with (sub l : bytes) : bool :=
  match sub, l with
  | [], _ => true
  | _ :: _, [] => false
  | x :: sub', y :: l' => Byte.eqb x y && starts_with sub' l'
  end.

(** The first of the [n] positions [pos], [pos+1], ... at which [sub] lies
    in the buffer, [l] being the buffer from [pos] on. *)
Fixpoint search (sub l : bytes) (pos : Z) (n : nat) {struct n} : Z :=
  match n with
  | O => -1
  | S n' =>
      if starts_with sub l then pos
      else match l with
           | [] => -1
           | _ :: l' => search sub l' (pos + 1) n'
           end
  end.

Definition find_start (start n : Z) : Z :=
  if start <? 0 then (if start + n <? 0 then 0 else start + n) else start.

Definition find_end (stop n : Z) : Z :=
  if stop >? n then n
  else if stop <? 0 then (if stop + n <? 0 then 0 else stop + n)
  else stop.

Definition find (b sub : bytes) (start : Z) (stop : option Z) : Z :=
  let n := len b in
  let e := match stop with None => n | Some e => find_end e n end in
  let s := find_start start n in
  if e - s <? len sub then -1
  else search sub (skipn (Z.to_nat s) b) s (Z.to_nat (e - s - len sub + 1)).

(** ** [decode_int]: [int.from_bytes(byte_string, 'little')] *)
Fixpoint decode_int (byte_string : bytes) : Z :=
  match byte_string with
  | [] => 0
  | x :: r => Z.of_N (Byte.to_N x) + 256 * decode_int r
  end.

(** ** [bytes.hex()] *)
Definition hex_digit (d : N) : N :=
  if (d <? 10)%N then (48 + d)%N else (87 + d)%N.

Fixpoint hex (b : bytes) : pystr :=
  match b with
  | [] => []
  | x :: r =>
      let n := Byte.to_N x in
      hex_digit (n / 16) :: hex_digit (n mod 16) :: hex r
  end.

(** ** [bytes.decode('UTF-8')], error handler [strict]

    The well-formed byte sequences are those of the Unicode standard: no
    overlong form, no surrogate, nothing above U+10FFFF.  Any other byte
    raises [UnicodeDecodeError]. *)
Definition is_cont (n : N) : bool := ((128 <=? n) && (n <=? 191))%N.

Definition in_range (lo hi n : N) : bool := ((lo <=? n) && (n <=? hi))%N.

Definition cons_char (c : N) (r : result pystr) : result pystr :=
  match r with
  | Ok s => Ok (c :: s)
  | Raise e => Raise e
  end.

Fixpoint utf8_decode (b : bytes) : result pystr :=
  match b with
  | [] => Ok []
  | x0 :: r0 =>
      let n0 := Byte.to_N x0 in
      if (n0 <? 128)%N then cons_char n0 (utf8_decode r0)
      else if in_range 194 223 n0 then
        match r0 with
        | x1 :: r1 =>
            let n1 := Byte.to_N x1 in
            if is_cont n1
            then cons_char ((n0 - 192) * 64 + (n1 - 128))%N (utf8_decode r1)
            else Raise UnicodeDecodeError
        | _ => Raise UnicodeDecodeError
        end
      else if in_range 224 239 n0 then
        match r0 with
        | x1 :: x2 :: r2 =>
            let n1 := Byte.to_N x1 in
            let n2 := Byte.to_N x2 in
            let lo := if (n0 =? 224)%N then 160%N else 128%N in
            let hi := if (n0 =? 237)%N then 159%N else 191%N in
            if in_range lo hi n1 && is_cont n2
            then cons_char ((n0 - 224) * 4096 + (n1 - 128) * 64 + (n2 - 128))%N
                           (utf8_decode r2)
            else Raise UnicodeDecodeError
        | _ => Raise UnicodeDecodeError
        end
      else if in_range 240 244 n0 then
        match r0 with
        | x1 :: x2 :: x3 :: r3 =>
            let n1 := Byte.to_N x1 in
            let n2 := Byte.to_N x2 in
            let n3 := Byte.to_N x3 in
            let lo := if (n0 =? 240)%N then 144%N else 128%N in
            let hi := if (n0 =? 244)%N then 143%N else 191%N in
            if in_range lo hi n1 && is_cont n2 && is_cont n3
            then cons_char ((n0 - 240) * 262144 + (n1 - 128) * 4096
                            + (n2 - 128) * 64 + (n3 - 128))%N
                           (utf8_decode r3)
            else Raise UnicodeDecodeError
        | _ => Raise UnicodeDecodeError
        end
      else Raise UnicodeDecodeError
  end.

(** [s.replace('\x00', '')] *)
Definition strip_nul (s : pystr) : pystr :=
  filter (fun c => negb (c =? 0)%N) s.

(** ** [decode_string] *)
Definition decode_string (byte_string : bytes) : result pystr :=
  match utf8_decode byte_string with
  | Ok s => Ok (strip_nul s)
  | Raise e => Raise e
  end.

(** ** Output of the scan

    Everything the scan prints that is not a hash line is informational; it
    is kept as a structured [diag] value, in the order of the prints. *)
Inductive field := Domain | Username | Workstation | NTLM.

Inductive diag :=
| FoundMessage (type : Z) (offset : option Z)   (* offset shown when verbose *)
| ServerChallenge (h : pystr)
| FieldText (f : field) (text : pystr)
| FieldLength (f : field) (n : Z)
| FieldOffset (f : field) (n : Z)
| NTProofStr (h : pystr)
| NTLMv2Response (h : pystr)
| HashRecovered
| NullSession
| ChallengeNotFound
| BlankLine.

Inductive event :=
| Notice (d : diag)                      (* a diagnostic [print] *)
| HashLine (hash_out : pystr)          (* [print(hash_out)] *)
| FileAppend (path text : pystr).      (* [f.write] on a file opened with "a" *)

(** Code that prints and may raise: the events so far, then a value or the
    exception that ended it. *)
Definition M (A : Type) : Type := (list event * result A)%type.

Definition ret {A} (a : A) : M A := ([], Ok a).

Definition bind {A B} (m : M A) (k : A -> M B) : M B :=
  match m with
  | (ev, Ok a) => let (ev', r) := k a in (ev ++ ev', r)
  | (ev, Raise e) => (ev, Raise e)
  end.

Notation "x <- m ;; k" := (bind m (fun x => k))
  (at level 61, m at next level, right associativity).
Notation "m ;; k" := (bind m (fun _ => k))
  (at level 61, right associativity).

Definition emit (e : event) : M unit := ([e], Ok tt).
Definition print (d : diag) : M unit := emit (Notice d).
Definition lift {A} (r : result A) : M A := ([], r).
Definition raise {A} (e : exn) : M A := ([], Raise e).
Definition when (c : bool) (m : M unit) : M unit := if c then m else ret tt.

(** [outfile != ''] *)
Definition nonempty (s : pystr) : bool :=
  match s with [] => false | _ :: _ => true end.

(** ** [writeOutfile] *)
Definition writeOutfile (output outstr : pystr) : M unit :=
  let outstr := outstr ++ [10%N] in
  emit (FileAppend output outstr).

(** ** NTLMSSP message signatures *)
Definition ntlmssp_sig : bytes := [x4e; x54; x4c; x4d; x53; x53; x50; x00].
Definition ntlmssp_type_1 : bytes :=
  [x4e; x54; x4c; x4d; x53; x53; x50; x00; x01; x00; x00; x00].
Definition ntlmssp_type_2 : bytes :=
  [x4e; x54; x4c; x4d; x53; x53; x50; x00; x02; x00; x00; x00].
Definition ntlmssp_type_3 : bytes :=
  [x4e; x54; x4c; x4d; x53; x53; x50; x00; x03; x00; x00; x00].

(** The fields decoded from a Type 3 message. *)
Record type3_fields := {
  domain_length : Z;
  domain_offset : Z;
  domain : bytes;
  username_length : Z;
  username_offset : Z;
  username : bytes;
  workstation_length : Z;
  workstation_offset : Z;
  workstation : bytes;
  ntlm_length : Z;
  ntlm_offset : Z;
  ntproofstr : bytes;
  ntlmv2_response : bytes
}.

(** The outcome of a scan pass run for a bounded number of iterations. *)
Inductive outcome :=
| Finished                                         (* the [while] loop ended *)
| Aborted (e : exn)                                (* an exception ended the scan *)
| Running (offset : Z) (server_challenge : option bytes).  (* still looping *)

(** ** [searchCaptureFile]: one scan pass over the bytes of the input file *)
Section SearchCaptureFile.

Variable readbuff : bytes.
Variable outfile : pystr.
Variables verbose quiet : bool.

(** [readbuff.find(t, offset, offset + len(t)) > -1] *)
Definition check_ntlm_type (t : bytes) (offset : Z) : bool :=
  find readbuff t offset (Some (offset + len t)) >? -1.

Definition shown (offset : Z) : option Z :=
  if verbose then Some offset else None.

(** NTLMSSP Message Type 1: Negotiation *)
Definition type_1 (offset : Z) : M unit :=
  when (negb quiet)
    (print (FoundMessage 1 (shown offset));;
     print BlankLine).

(** NTLMSSP Message Type 2: Challenge *)
Definition type_2 (offset : Z) : M bytes :=
  let server_challenge := slice readbuff (offset + 24) (offset + 32) in
  when (negb quiet)
    (print (FoundMessage 2 (shown offset));;
     print (ServerChallenge (hex server_challenge));;
     print BlankLine);;
  ret server_challenge.

(** The slices and integers read from a Type 3 message at [offset]. *)
Definition decode_type_3 (offset : Z) : type3_fields :=
  let domain_length_raw := slice readbuff (offset + 28) (offset + 28 + 2) in
  let domain_length := decode_int domain_length_raw in
  let domain_offset_raw :=
    slice readbuff (offset + 28 + 2 + 2) (offset + 28 + 2 + 2 + 4) in
  let domain_offset := decode_int domain_offset_raw in
  let domain :=
    slice readbuff (offset + domain_offset)
          (offset + domain_offset + domain_length) in
  let username_length_raw := slice readbuff (offset + 36) (offset + 36 + 2) in
  let username_length := decode_int username_length_raw in
  let username_offset_raw :=
    slice readbuff (offset + 36 + 2 + 2) (offset + 36 + 2 + 2 + 4) in
  let username_offset := decode_int username_offset_raw in
  let username :=
    slice readbuff (offset + username_offset)
          (offset + username_offset + username_length) in
  let workstation_length_raw :=
    slice readbuff (offset + 44) (offset + 44 + 2) in
  let workstation_length := decode_int workstation_length_raw in
  let workstation_offset_raw :=
    slice readbuff (offset + 44 + 2 + 2) (offset + 44 + 2 + 2 + 4) in
  let workstation_offset := decode_int workstation_offset_raw in
  let workstation :=
    slice readbuff (offset + workstation_offset)
          (offset + workstation_offset + workstation_length) in
  let ntlm_length_raw := slice readbuff (offset + 20) (offset + 20 + 2) in
  let ntlm_length := decode_int ntlm_length_raw in
  let ntlm_offset_raw :=
    slice readbuff (offset + 20 + 2 + 2) (offset + 20 + 2 + 2 + 4) in
  let ntlm_offset := decode_int ntlm_offset_raw in
  let ntproofstr :=
    slice readbuff (offset + ntlm_offset) (offset + ntlm_offset + 16) in
  let ntlmv2_response :=
    slice readbuff (offset + ntlm_offset + 16)
          (offset + ntlm_offset + ntlm_length) in
  {| domain_length := domain_length;
     domain_offset := domain_offset;
     domain := domain;
     username_length := username_length;
     username_offset := username_offset;
     username := username;
     workstation_length := workstation_length;
     workstation_offset := workstation_offset;
     workstation := workstation;
     ntlm_length := ntlm_length;
     ntlm_offset := ntlm_offset;
     ntproofstr := ntproofstr;
     ntlmv2_response := ntlmv2_response |}.

(** The diagnostic block printed for one text field. *)
Definition show_text (f : field) (raw : bytes) (length offset : Z) : M unit :=
  when (negb quiet)
    (text <- lift (decode_string raw);;
     print (FieldText f text);;
     when verbose
       (print (FieldLength f length);;
        print (FieldOffset f offset);;
        print BlankLine)).

(** Prepare NTLMv2 Hash for output *)
Definition prepare_hash (m : type3_fields) (server_challenge : option bytes)
  : M (option bytes) :=
  match server_challenge with
  | Some challenge =>
      when (negb quiet) (print HashRecovered);;
      (if ntlm_length m =? 0 then
         when (negb quiet) (print NullSession)
       else if domain_length m =? 0 then
         u <- lift (decode_string (username m));;
         w <- lift (decode_string (workstation m));;
         let hash_out :=
           u ++ lit "::" ++ w ++ lit ":" ++ hex challenge ++ lit ":"
             ++ hex (ntproofstr m) ++ lit ":" ++ hex (ntlmv2_response m) in
         emit (HashLine hash_out);;
         (* [writeOutfile(output, hash_out)]: no name [output] is bound *)
         (if nonempty outfile then raise NameError else ret tt)
       else
         d <- lift (decode_string (domain m));;
         u <- lift (decode_string (username m));;
         w <- lift (decode_string (workstation m));;
         let hash_out :=
           d ++ lit "\" ++ u ++ lit "::" ++ w ++ lit ":" ++ hex challenge
             ++ lit ":" ++ hex (ntproofstr m) ++ lit ":"
             ++ hex (ntlmv2_response m) in
         emit (HashLine hash_out);;
         (if nonempty outfile then writeOutfile outfile hash_out else ret tt));;
      print BlankLine;;
      (* Reset variable *)
      ret None
  | None =>
      when (negb quiet)
        (print ChallengeNotFound;;
         print BlankLine);;
      ret None
  end.

(** NTLMSSP Message Type 3: Authentication *)
Definition type_3 (offset : Z) (server_challenge : option bytes)
  : M (option bytes) :=
  let m := decode_type_3 offset in
  when (negb quiet) (print (FoundMessage 3 (shown offset)));;
  show_text Domain (domain m) (domain_length m) (domain_offset m);;
  show_text Username (username m) (username_length m) (username_offset m);;
  show_text Workstation (workstation m) (workstation_length m)
            (workstation_offset m);;
  when (negb quiet)
    (when verbose
       (print (FieldLength NTLM (ntlm_length m));;
        print (FieldOffset NTLM (ntlm_offset m));;
        print (NTProofStr (hex (ntproofstr m)));;
        print (NTLMv2Response (hex (ntlmv2_response m))));;
     print BlankLine);;
  prepare_hash m server_challenge.

(** The search position of the next [find]: past the signature, "unless
    start of file". *)
Definition advance (offset : Z) : Z :=
  if negb (offset =? 0) then offset + len ntlmssp_sig else offset.

(** The offset after the [find] of one iteration. *)
Definition next_offset (offset : Z) : Z :=
  find readbuff ntlmssp_sig (advance offset) None.

(** Check for NTLMSSP Message type(s): the three tests made at the offset
    just found, in the order of the source. *)
Definition check_message_types (offset : Z) (server_challenge : option bytes)
  : M (option bytes) :=
  (if check_ntlm_type ntlmssp_type_1 offset then type_1 offset else ret tt);;
  server_challenge <-
    (if check_ntlm_type ntlmssp_type_2 offset
     then c <- type_2 offset;; ret (Some c)
     else ret server_challenge);;
  (if check_ntlm_type ntlmssp_type_3 offset
   then type_3 offset server_challenge
   else ret server_challenge).

(** One iteration of the [while] loop. *)
Definition loop_body (offset : Z) (server_challenge : option bytes)
  : M (Z * option bytes) :=
  let offset := next_offset offset in
  server_challenge <- check_message_types offset server_challenge;;
  ret (offset, server_challenge).

(** [while offset != -1: ...], for at most [fuel] iterations. *)
Fixpoint scan_loop (fuel : nat) (offset : Z) (server_challenge : option bytes)
  : list event * outcome :=
  if offset =? -1 then ([], Finished)
  else match fuel with
       | O => ([], Running offset server_challenge)
       | S fuel' =>
           match loop_body offset server_challenge with
           | (ev, Ok (offset', server_challenge')) =>
               let (ev', o) := scan_loop fuel' offset' server_challenge' in
               (ev ++ ev', o)
           | (ev, Raise e) => (ev, Aborted e)
           end
       end.

(** The scan pass of [searchCaptureFile(infile, outfile, verbose, follow,
    quiet, offset)], [readbuff] being the content of [infile] and
    [server_challenge] starting as [None].  What follows the loop when
    [follow] is set (sleep, then a new pass from [last_byte]) is a further
    pass of the same function and not part of this one. *)
Definition searchCaptureFile (fuel : nat) (offset : Z)
  : list event * outcome :=
  scan_loop fuel offset None.

(** The offsets the loop visits: the successive values of [offset] after
    the [find], up to the first [-1]. *)
Fixpoint occurrences (fuel : nat) (offset : Z) : list Z :=
  match fuel with
  | O => []
  | S fuel' =>
      if offset =? -1 then []
      else let offset' := next_offset offset in
           if offset' =? -1 then [] else offset' :: occurrences fuel' offset'
  end.

End SearchCaptureFile.

(** The hash lines among the events of a scan. *)
Fixpoint hash_lines (ev : list event) : list pystr :=
  match ev with
  | [] => []
  | HashLine h :: r => h :: hash_lines r
  | _ :: r => hash_lines r
  end.

(** The lines appended to the output file. *)
Fixpoint file_appends (ev : list event) : list (pystr * pystr) :=
  match ev with
  | [] => []
  | FileAppend p t :: r => (p, t) :: file_appends r
  | _ :: r => file_appends r
  end.

(** What a piece of code is observed to do: the hash lines printed, the
    lines appended to the output file, and how it ended. *)
Definition obs {A} (m : M A) : list pystr * list (pystr * pystr) * result A :=
  (hash_lines (fst m), file_appends (fst m), snd m).

(** Code that prints diagnostics only. *)
Definition silent {A} (m : M A) : Prop :=
  hash_lines (fst m) = [] /\ file_appends (fst m) = [].

(** ** The buffers of the scenarios *)

Definition zeros (n : nat) : bytes := repeat x00 n.

(** A Type 2 message of 100 bytes with server challenge [01 02 .. 08]. *)
Definition type2_message : bytes :=
  ntlmssp_type_2 ++ zeros 12
    ++ [x01; x02; x03; x04; x05; x06; x07; x08] ++ zeros 68.

(** A Type 3 message with the given NTLM-response and domain descriptors
    and the given 6 bytes of username at +64; the workstation "WS1"
    (UTF-16LE) is at +70, the NT proof [AA] x 16 at +76 and the response
    remainder [BB] x 10 at +92. *)
Definition type3_with (ntlm_descriptor domain_descriptor user : bytes)
  : bytes :=
  ntlmssp_type_3 ++ zeros 8
    ++ ntlm_descriptor
    ++ domain_descriptor
    ++ [x06; x00; x06; x00; x40; x00; x00; x00]     (* username: 6 at +64 *)
    ++ [x06; x00; x06; x00; x46; x00; x00; x00]     (* workstation: 6 at +70 *)
    ++ zeros 12
    ++ user
    ++ [x57; x00; x53; x00; x31; x00]
    ++ repeat xaa 16 ++ repeat xbb 10.

(** NTLM response: 26 bytes at +76. *)
Definition ntlm_26_at_76 : bytes := [x1a; x00; x1a; x00; x4c; x00; x00; x00].
(** Domain: 0 bytes at +64. *)
Definition no_domain : bytes := [x00; x00; x00; x00; x40; x00; x00; x00].
(** "bob" in UTF-16LE. *)
Definition bob : bytes := [x62; x00; x6f; x00; x62; x00].

(** The Type 3 message of the concrete scenario: domain length 0, username
    "bob", workstation "WS1", NT proof [AA] x 16, remainder [BB] x 10. *)
Definition type3_message : bytes := type3_with ntlm_26_at_76 no_domain bob.

(** The buffer of the concrete scenario: Type 2 at offset 0, Type 3 at
    offset 100. *)
Definition scenario : bytes := type2_message ++ type3_message.

(** The same two messages behind one leading byte. *)
Definition shifted_scenario : bytes := xff :: scenario.

Definition scenario_record : pystr :=
  lit "bob::WS1:0102030405060708:aaaaaaaaaaaaaaaaaaaaaaaaaaaaaaaa:bbbbbbbbbbbbbbbbbbbb".

(** The shifted scenario with a domain of 6 bytes at +70 (the bytes of
    "WS1"). *)
Definition domain_scenario : bytes :=
  xff :: type2_message
    ++ type3_with ntlm_26_at_76 [x06; x00; x06; x00; x46; x00; x00; x00] bob.

Definition domain_record : pystr :=
  lit "WS1\bob::WS1:0102030405060708:aaaaaaaaaaaaaaaaaaaaaaaaaaaaaaaa:bbbbbbbbbbbbbbbbbbbb".

(** The shifted scenario with a declared NTLM-response length of 4. *)
Definition short_scenario : bytes :=
  xff :: type2_message
    ++ type3_with [x04; x00; x04; x00; x4c; x00; x00; x00] no_domain bob.

(** The shifted scenario with the username "\u00e9ob" in UTF-16LE. *)
Definition latin1_scenario : bytes :=
  xff :: type2_message
    ++ type3_with ntlm_26_at_76 no_domain [xe9; x00; x6f; x00; x62; x00].

(** The shifted scenario cut after the 64 bytes of the Type 3 header: every
    descriptor-addressed range lies past the end of the buffer. *)
Definition truncated_scenario : bytes := firstn 165 shifted_scenario.

(** The shifted scenario with a declared NTLM-response length of 0 (a NULL
    session). *)
Definition null_session_scenario : bytes :=
  xff :: type2_message
    ++ type3_with [x00; x00; x00; x00; x4c; x00; x00; x00] no_domain bob.

(** The shifted scenario cut 16 bytes into the Type 3 message: no
    descriptor of the message is left. *)
Definition cut_scenario : bytes := firstn 117 shifted_scenario.

(** A buffer that is the signature and nothing else. *)
Definition signature_only : bytes := ntlmssp_sig.

(** ** Reading the layout from the specification

    The bytes of [b] at the positions [start, start + n): what lies past the
    end of [b] is not there. *)
Definition range (b : bytes) (start n : Z) : bytes :=
  firstn (Z.to_nat n) (skipn (Z.to_nat start) b).

(** The byte at position [i] as a number, [0] when [b] ends before it. *)
Definition byte_at (b : bytes) (i : Z) : Z :=
  match nth_error b (Z.to_nat i) with
  | Some x => Z.of_N (Byte.to_N x)
  | None => 0
  end.

(** A little-endian unsigned integer of 2 or of 4 bytes at position [i]. *)
Definition le16 (b : bytes) (i : Z) : Z :=
  byte_at b i + 256 * byte_at b (i + 1).

Definition le32 (b : bytes) (i : Z) : Z :=
  byte_at b i + 256 * byte_at b (i + 1) + 65536 * byte_at b (i + 2)
  + 16777216 * byte_at b (i + 3).

(** A length/offset descriptor at [pos]: a 2-byte length, 2 bytes that are
    not read, a 4-byte offset. *)
Definition descriptor (b : bytes) (pos length offset : Z) : Prop :=
  length = le16 b pos /\ offset = le32 b (pos + 4).

(** The hash record of the data model:
    [DOMAIN\]USERNAME::WORKSTATION:SERVER_CHALLENGE_HEX:NT_PROOF_STR_HEX:NTLMV2_RESPONSE_HEX,
    the domain segment and its backslash being optional. *)
Definition record (d : option pystr) (u w : pystr)
           (challenge proof response : bytes) : pystr :=
  let rest :=
    u ++ lit "::" ++ w ++ lit ":" ++ hex challenge ++ lit ":"
      ++ hex proof ++ lit ":" ++ hex response in
  match d with
  | Some d => d ++ lit "\" ++ rest
  | None => rest
  end.

(** The pending challenge after the Type 2 test at [offset]: the 8 bytes at
    +24 of a Type 2 message, the previous value otherwise. *)
Definition after_type_2 (readbuff : bytes) (offset : Z)
           (server_challenge : option bytes) : option bytes :=
  if check_ntlm_type readbuff ntlmssp_type_2 offset
  then Some (slice readbuff (offset + 24) (offset + 32))
  else server_challenge.

(** The server challenge of the scenarios. *)
Definition challenge_0108 : bytes := [x01; x02; x03; x04; x05; x06; x07; x08].

(** Bytes that are all below 0x80. *)
Definition ascii_bytes (b : bytes) : Prop :=
  Forall (fun x => (Byte.to_N x < 128)%N) b.

(** A text of ASCII characters other than NUL. *)
Definition ascii_text (s : pystr) : Prop :=
  Forall (fun c => (0 < c < 128)%N) s.

(** The signature lies in [b] at position [p]. *)
Definition signature_at (b : bytes) (p : Z) : bool :=
  (0 <=? p) && starts_with ntlmssp_sig (skipn (Z.to_nat p) b).

(** The UTF-16LE encoding of a text of characters below U+0100. *)
Definition utf16le (s : pystr) : bytes :=
  flat_map (fun c => match Byte.of_N c with
                     | Some x => [x; x00]
                     | None => []
                     end) s.

(** ** Alphabets *)

(** A lowercase hexadecimal digit, [0-9a-f]. *)
Definition hex_char (c : N) : bool := in_range 48 57 c || in_range 97 102 c.

(** A Unicode scalar value: up to U+10FFFF, the surrogates left out. *)
Definition scalar_value (c : N) : bool :=
  (c <? 55296)%N || in_range 57344 1114111 c.

(** What is printed or written when [quiet] is set: hash lines, lines of
    the output file and the blank line that closes a hash block. *)
Definition quiet_event (e : event) : bool :=
  match e with
  | Notice BlankLine => true
  | Notice _ => false
  | HashLine _ => true
  | FileAppend _ _ => true
  end.

(** ** [main]: the command line *)

(** What [main] prints, a constructor for each message. *)
Inductive main_print :=
| Banner                              (* banner() *)
| Usage                               (* usage() *)
| HelpOptions                         (* the option list of showhelp() *)
| InputNotSpecified                   (* "Error: Input file not specified..." *)
| InputNotFound                       (* "Error: Input file not found." *)
| Searching (infile : pystr)          (* "Searching <infile> for NTLMv2 hashes..." *)
| WritingOutputTo (outfile : pystr)   (* "Writing output to: <outfile>" *)
| RegularWhite.                       (* the escape sequence printed last *)

(** The option values of [main]. *)
Record settings := {
  opt_infile : pystr;
  opt_outfile : pystr;
  opt_verbose : bool;
  opt_follow : bool;
  opt_quiet : bool
}.

(** Default option values *)
Definition default_settings : settings :=
  {| opt_infile := []; opt_outfile := []; opt_verbose := false;
     opt_follow := false; opt_quiet := false |}.

(** How [main] ends. *)
Inductive main_result :=
| SysExit (status : Z)                 (* sys.exit() is status 0 *)
| Search (infile outfile : pystr) (verbose follow quiet : bool) (offset : Z)
                                       (* the call of searchCaptureFile *)
| Return.                              (* the end of the function *)

Definition str_eqb (a b : pystr) : bool :=
  if list_eq_dec N.eq_dec a b then true else false.

(** [opt in (k1, k2)] *)
Definition str_in (opt : pystr) (keys : list pystr) : bool :=
  existsb (str_eqb opt) keys.

Definition help_keys : list pystr := [lit "-h"; lit "--help"].
Definition input_keys : list pystr := [lit "-i"; lit "--input"].
Definition output_keys : list pystr := [lit "-o"; lit "--output"].
Definition follow_keys : list pystr := [lit "-f"; lit "--follow"].
Definition verbose_keys : list pystr := [lit "-v"; lit "--verbose"].
Definition quiet_keys : list pystr := [lit "-q"; lit "--quiet"].

(** [for opt, arg in opts: ...]: the settings after the options, or the
    exit status of the option that ended the program. *)
Fixpoint process_opts (opts : list (pystr * pystr)) (s : settings)
  : list main_print * (Z + settings) :=
  match opts with
  | [] => ([], inr s)
  | (opt, arg) :: rest =>
      if str_in opt help_keys then ([Banner; Usage; HelpOptions], inl 0)
      else if str_in opt input_keys then
        process_opts rest
          {| opt_infile := arg; opt_outfile := opt_outfile s;
             opt_verbose := opt_verbose s; opt_follow := opt_follow s;
             opt_quiet := opt_quiet s |}
      else if str_in opt output_keys then
        process_opts rest
          {| opt_infile := opt_infile s; opt_outfile := arg;
             opt_verbose := opt_verbose s; opt_follow := opt_follow s;
             opt_quiet := opt_quiet s |}
      else if str_in opt follow_keys then
        process_opts rest
          {| opt_infile := opt_infile s; opt_outfile := opt_outfile s;
             opt_verbose := opt_verbose s; opt_follow := true;
             opt_quiet := opt_quiet s |}
      else if str_in opt verbose_keys then
        process_opts rest
          {| opt_infile := opt_infile s; opt_outfile := opt_outfile s;
             opt_verbose := true; opt_follow := opt_follow s;
             opt_quiet := opt_quiet s |}
      else if str_in opt quiet_keys then
        process_opts rest
          {| opt_infile := opt_infile s; opt_outfile := opt_outfile s;
             opt_verbose := opt_verbose s; opt_follow := opt_follow s;
             opt_quiet := true |}
      else ([Usage], inl 2)
  end.

Section Main.

(** [getopt.getopt(argv, "hvqfi:o:", ["input=", "output=", "verbose",
    "follow", "quiet"])]: the options and the remaining arguments, [None]
    when it raises GetoptError. *)
Variable getopt : list pystr -> option (list (pystr * pystr) * list pystr).

(** [os.path.exists] *)
Variable path_exists : pystr -> bool.

Definition main (argv : list pystr) : list main_print * main_result :=
  match argv with
  | [] => ([Banner; Usage], SysExit 0)
  | _ :: _ =>
      match getopt argv with
      | None => ([Usage], SysExit 2)
      | Some (opts, _) =>
          match process_opts opts default_settings with
          | (ev, inl status) => (ev, SysExit status)
          | (ev, inr s) =>
              if negb (nonempty (opt_infile s)) then
                (ev ++ [InputNotSpecified], SysExit 0)
              else if negb (path_exists (opt_infile s)) then
                (ev ++ [InputNotFound], SysExit 0)
              else
                let verbose := if opt_quiet s then false else opt_verbose s in
                let ev := ev ++ (if opt_quiet s then [] else [Banner]) in
                if nonempty (opt_infile s) then
                  (ev ++ [Searching (opt_infile s)]
                      ++ (if nonempty (opt_outfile s)
                          then [WritingOutputTo (opt_outfile s)] else [])
                      ++ [RegularWhite],
                   Search (opt_infile s) (opt_outfile s) verbose
                          (opt_follow s) (opt_quiet s) 0)
                else (ev, Return)
          end
      end
  end.

End Main.

(** The argument of the last option of [opts] with a key of [keys],
    [default] when there is none. *)
Fixpoint last_arg (keys : list pystr) (opts : list (pystr * pystr))
         (default : pystr) : pystr :=
  match opts with
  | [] => default
  | (opt, arg) :: rest =>
      last_arg keys rest (if str_in opt keys then arg else default)
  end.

(** Some option of [opts] has a key of [keys]. *)
Definition has_opt (keys : list pystr) (opts : list (pystr * pystr)) : bool :=
  existsb (fun o => str_in (fst o) keys) opts.

(** The keys [main] sets a value for. *)
Definition setting_keys : list pystr :=
  input_keys ++ output_keys ++ follow_keys ++ verbose_keys ++ quiet_keys.

(** * Properties *)

(** ** Slices *)

Lemma slice_range (b : bytes) (start stop : Z) :
  0 <= start -> start <= stop ->
  slice b start stop = range b start (stop - start).
Proof.
  intros Hs Hle. unfold slice, range, adjust_index, len.
  set (n := Z.of_nat (List.length b)).
  assert (Hn : 0 <= n) by (subst n; lia).
  destruct (start <? 0) eqn:E1; [lia|].
  destruct (stop <? 0) eqn:E2; [lia|].
  destruct (start >=? n) eqn:E3; destruct (stop >=? n) eqn:E4;
    rewrite ?Z.geb_leb in *;
    repeat match goal with
           | H : (_ <=? _) = true |- _ => apply Z.leb_le in H
           | H : (_ <=? _) = false |- _ => apply Z.leb_gt in H
           end.
  - rewrite Z.ltb_irrefl.
    rewrite skipn_all2 by (subst n; lia). now rewrite firstn_nil.
  - lia.
  - destruct (start <? n) eqn:E5; [|lia].
    rewrite !firstn_all2; trivial; rewrite length_skipn; subst n; lia.
  - destruct (start <? stop) eqn:E5; [reflexivity|].
    apply Z.ltb_ge in E5. replace (stop - start) with 0 by lia. reflexivity.
Qed.

Lemma range_length (b : bytes) (start n : Z) :
  0 <= start -> 0 <= n -> start + n <= len b ->
  List.length (range b start n) = Z.to_nat n.
Proof.
  intros. unfold range, len in *.
  rewrite length_firstn, length_skipn. lia.
Qed.

Lemma range_length_le (b : bytes) (start n : Z) :
  (List.length (range b start n) <= Z.to_nat n)%nat.
Proof. unfold range. rewrite length_firstn. lia. Qed.

Lemma range_nth_error (b : bytes) (start n : Z) (i : nat) :
  nth_error (range b start n) i =
  if (i <? Z.to_nat n)%nat then nth_error b (Z.to_nat start + i) else None.
Proof.
  unfold range. destruct (i <? Z.to_nat n)%nat eqn:E.
  - apply Nat.ltb_lt in E. rewrite nth_error_firstn.
    apply Nat.ltb_lt in E. rewrite E. now rewrite nth_error_skipn.
  - apply Nat.ltb_ge in E. apply nth_error_None.
    rewrite length_firstn. lia.
Qed.

Lemma range_past_end (b : bytes) (start n : Z) :
  0 <= start -> len b <= start -> range b start n = [].
Proof.
  intros. unfold range, len in *.
  rewrite skipn_all2 by lia. apply firstn_nil.
Qed.

Lemma range_split (b : bytes) (start n k : Z) :
  0 <= start -> 0 <= k -> k <= n ->
  range b start k = firstn (Z.to_nat k) (range b start n) /\
  range b (start + k) (n - k) = skipn (Z.to_nat k) (range b start n).
Proof.
  intros. unfold range. split.
  - rewrite firstn_firstn. f_equal. lia.
  - rewrite skipn_firstn_comm, skipn_skipn. f_equal; [lia|f_equal; lia].
Qed.

(** ** Little-endian integers *)

Lemma byte_at_skipn (b : bytes) (i : Z) (k : nat) :
  0 <= i ->
  byte_at b (i + Z.of_nat k) =
  match nth_error (skipn (Z.to_nat i) b) k with
  | Some x => Z.of_N (Byte.to_N x)
  | None => 0
  end.
Proof.
  intros. unfold byte_at. rewrite nth_error_skipn.
  now replace (Z.to_nat (i + Z.of_nat k)) with (Z.to_nat i + k)%nat by lia.
Qed.

Lemma decode_int_le16 (b : bytes) (i : Z) :
  0 <= i -> decode_int (slice b i (i + 2)) = le16 b i.
Proof.
  intros Hi. rewrite slice_range by lia. unfold le16, range.
  pose proof (byte_at_skipn b i 0 Hi) as H0.
  pose proof (byte_at_skipn b i 1 Hi) as H1.
  rewrite Z.add_0_r in H0. change (Z.of_nat 1) with 1 in H1.
  rewrite H0, H1. replace (i + 2 - i) with 2 by lia.
  change (Z.to_nat 2) with 2%nat.
  destruct (skipn (Z.to_nat i) b) as [|x0 [|x1 r]];
    cbn [decode_int firstn nth_error]; lia.
Qed.

Lemma decode_int_le32 (b : bytes) (i : Z) :
  0 <= i -> decode_int (slice b i (i + 4)) = le32 b i.
Proof.
  intros Hi. rewrite slice_range by lia. unfold le32, range.
  pose proof (byte_at_skipn b i 0 Hi) as H0.
  pose proof (byte_at_skipn b i 1 Hi) as H1.
  pose proof (byte_at_skipn b i 2 Hi) as H2.
  pose proof (byte_at_skipn b i 3 Hi) as H3.
  rewrite Z.add_0_r in H0. change (Z.of_nat 1) with 1 in H1.
  change (Z.of_nat 2) with 2 in H2. change (Z.of_nat 3) with 3 in H3.
  rewrite H0, H1, H2, H3. replace (i + 4 - i) with 4 by lia.
  change (Z.to_nat 4) with 4%nat.
  destruct (skipn (Z.to_nat i) b) as [|x0 [|x1 [|x2 [|x3 r]]]];
    cbn [decode_int firstn nth_error]; lia.
Qed.

Lemma decode_int_nonneg (b : bytes) : 0 <= decode_int b.
Proof. induction b; cbn [decode_int]; lia. Qed.

Lemma read_descriptor (b : bytes) (offset pos : Z) :
  0 <= offset -> 0 <= pos ->
  descriptor b (offset + pos)
    (decode_int (slice b (offset + pos) (offset + pos + 2)))
    (decode_int (slice b (offset + pos + 2 + 2) (offset + pos + 2 + 2 + 4))).
Proof.
  intros. split.
  - apply decode_int_le16. lia.
  - replace (offset + pos + 2 + 2) with (offset + pos + 4) by lia.
    apply decode_int_le32. lia.
Qed.

Lemma read_field (b : bytes) (offset field_offset field_length : Z) :
  0 <= offset -> 0 <= field_offset -> 0 <= field_length ->
  slice b (offset + field_offset) (offset + field_offset + field_length)
  = range b (offset + field_offset) field_length.
Proof.
  intros. rewrite slice_range by lia. f_equal. lia.
Qed.

Lemma slice_backwards (b : bytes) (start stop : Z) :
  0 <= stop -> stop <= start -> slice b start stop = [].
Proof.
  intros. unfold slice, adjust_index.
  destruct (start <? 0) eqn:E1; [apply Z.ltb_lt in E1; lia|].
  destruct (stop <? 0) eqn:E2; [apply Z.ltb_lt in E2; lia|].
  destruct (start >=? len b) eqn:E3; destruct (stop >=? len b) eqn:E4;
    rewrite ?Z.geb_leb in *;
    repeat match goal with
           | H : (_ <=? _) = true |- _ => apply Z.leb_le in H
           | H : (_ <=? _) = false |- _ => apply Z.leb_gt in H
           end;
    match goal with
    | |- (if ?c then _ else _) = _ => destruct c eqn:E5; [apply Z.ltb_lt in E5; lia|reflexivity]
    end.
Qed.

(** ** The fields of a Type 3 message *)

Section Type3Fields.

Variable readbuff : bytes.
Variable offset : Z.
Hypothesis offset_nonneg : 0 <= offset.

Lemma ntproofstr_range :
  let m := decode_type_3 readbuff offset in
  ntproofstr m = range readbuff (offset + ntlm_offset m) 16.
Proof.
  cbn [ntproofstr ntlm_offset decode_type_3].
  pose proof (decode_int_nonneg
                (slice readbuff (offset + 20 + 2 + 2) (offset + 20 + 2 + 2 + 4))).
  rewrite slice_range by lia. f_equal. lia.
Qed.

Lemma ntlmv2_response_range :
  let m := decode_type_3 readbuff offset in
  ntlmv2_response m
  = skipn 16 (range readbuff (offset + ntlm_offset m) (ntlm_length m)).
Proof.
  cbn [ntlmv2_response ntlm_offset ntlm_length decode_type_3].
  set (o := decode_int (slice readbuff (offset + 20 + 2 + 2) _)).
  set (l := decode_int (slice readbuff (offset + 20) _)).
  pose proof (decode_int_nonneg
                (slice readbuff (offset + 20 + 2 + 2) (offset + 20 + 2 + 2 + 4))).
  pose proof (decode_int_nonneg
                (slice readbuff (offset + 20) (offset + 20 + 2))).
  fold o in H. fold l in H0.
  destruct (Z_lt_le_dec l 16).
  - rewrite slice_backwards by lia.
    symmetry. apply skipn_all2.
    etransitivity; [apply range_length_le|lia].
  - rewrite slice_range by lia.
    replace (offset + o + l - (offset + o + 16)) with (l - 16) by lia.
    apply (range_split readbuff (offset + o) l 16); lia.
Qed.

Lemma text_field_range (pos : Z) :
  0 <= pos ->
  let length := decode_int (slice readbuff (offset + pos) (offset + pos + 2)) in
  let field_offset :=
    decode_int (slice readbuff (offset + pos + 2 + 2) (offset + pos + 2 + 2 + 4)) in
  slice readbuff (offset + field_offset) (offset + field_offset + length)
  = range readbuff (offset + field_offset) length.
Proof.
  intros. apply read_field; trivial; apply decode_int_nonneg.
Qed.

End Type3Fields.

(** C7: the four variable-length fields of a Type 3 message are read through
    descriptors at +28 (domain), +36 (username), +44 (workstation) and +20
    (NTLM response), each a 2-byte little-endian length, 2 bytes that are
    not read and a 4-byte little-endian offset relative to the message
    start; the bytes of a field are those of the buffer in
    [offset + field_offset, offset + field_offset + field_length); the
    NTLMv2 response is the blob without its first 16 bytes, and for a
    declared length of at least 16 the NT proof is the first 16 bytes of the
    blob, the two parts making up the blob, with lengths 16 and length - 16
    when the blob lies inside the buffer. *)
Theorem type3_field_layout (readbuff : bytes) (offset : Z) :
  0 <= offset ->
  let m := decode_type_3 readbuff offset in
  let blob := range readbuff (offset + ntlm_offset m) (ntlm_length m) in
  descriptor readbuff (offset + 28) (domain_length m) (domain_offset m) /\
  descriptor readbuff (offset + 36) (username_length m) (username_offset m) /\
  descriptor readbuff (offset + 44) (workstation_length m)
             (workstation_offset m) /\
  descriptor readbuff (offset + 20) (ntlm_length m) (ntlm_offset m) /\
  domain m = range readbuff (offset + domain_offset m) (domain_length m) /\
  username m
    = range readbuff (offset + username_offset m) (username_length m) /\
  workstation m
    = range readbuff (offset + workstation_offset m) (workstation_length m) /\
  ntlmv2_response m = skipn 16 blob /\
  (16 <= ntlm_length m ->
   ntproofstr m = firstn 16 blob /\
   ntproofstr m ++ ntlmv2_response m = blob /\
   (offset + ntlm_offset m + ntlm_length m <= len readbuff ->
    List.length (ntproofstr m) = 16%nat /\
    Z.of_nat (List.length (ntlmv2_response m)) = ntlm_length m - 16)).
Proof.
  intros Hoff m blob.
  pose proof (ntlmv2_response_range readbuff offset Hoff) as Hresp.
  pose proof (ntproofstr_range readbuff offset Hoff) as Hproof.
  cbv zeta in Hresp, Hproof. fold m in Hresp, Hproof. fold blob in Hresp.
  assert (Ho : 0 <= ntlm_offset m)
    by (subst m; cbn [ntlm_offset decode_type_3]; apply decode_int_nonneg).
  repeat split.
  1-8: try (apply decode_int_le16; lia).
  1-4: match goal with
       | |- _ = le32 _ (?o + ?p + 4) =>
           replace (o + p + 4) with (o + p + 2 + 2) by lia;
           apply decode_int_le32; lia
       end.
  1-3: match goal with
       | |- _ = range ?b (?o + _) _ => apply (text_field_range b o Hoff); lia
       end.
  - exact Hresp.
  - rewrite Hproof.
    apply (range_split readbuff (offset + ntlm_offset m) (ntlm_length m) 16);
      lia.
  - rewrite Hresp, Hproof.
    destruct (range_split readbuff (offset + ntlm_offset m) (ntlm_length m) 16)
      as [E _]; try lia.
    rewrite E. apply firstn_skipn.
  - rewrite Hproof. rewrite range_length; lia.
  - rewrite Hresp. subst blob. rewrite length_skipn, range_length; lia.
Qed.

Lemma type3_field_layout_witness :
  let m := decode_type_3 scenario 100 in
  let blob := range scenario (100 + ntlm_offset m) (ntlm_length m) in
  16 <= ntlm_length m /\
  100 + ntlm_offset m + ntlm_length m <= len scenario /\
  domain m = range scenario (100 + domain_offset m) (domain_length m) /\
  ntproofstr m = firstn 16 blob /\
  ntproofstr m ++ ntlmv2_response m = blob /\
  List.length (ntproofstr m) = 16%nat /\
  Z.of_nat (List.length (ntlmv2_response m)) = ntlm_length m - 16.
Proof.
  intros m blob.
  assert (H16 : 16 <= ntlm_length m) by (vm_compute; discriminate).
  assert (Hin : 100 + ntlm_offset m + ntlm_length m <= len scenario)
    by (vm_compute; discriminate).
  destruct (type3_field_layout scenario 100 ltac:(lia))
    as (_ & _ & _ & _ & Hd & _ & _ & _ & Hsplit).
  destruct (Hsplit H16) as (Hp & Hb & Hl).
  destruct (Hl Hin) as (Hl1 & Hl2).
  repeat split; assumption.
Defined.

(** C10: the NT proof value of a Type 3 message is the 16 bytes of the
    buffer that start at offset + ntlm_offset, whatever the declared length
    of the NTLM response is (the 16 bytes lying inside the buffer); when the
    declared length is below 16, the NTLMv2 response remainder is empty. *)
Theorem ntproofstr_ignores_length (readbuff : bytes) (offset : Z) :
  0 <= offset ->
  let m := decode_type_3 readbuff offset in
  offset + ntlm_offset m + 16 <= len readbuff ->
  ntproofstr m = range readbuff (offset + ntlm_offset m) 16 /\
  List.length (ntproofstr m) = 16%nat /\
  (forall i : nat, (i < 16)%nat ->
     nth_error (ntproofstr m) i
     = nth_error readbuff (Z.to_nat (offset + ntlm_offset m) + i)) /\
  (ntlm_length m < 16 -> ntlmv2_response m = []).
Proof.
  intros Hoff m Hin.
  pose proof (ntlmv2_response_range readbuff offset Hoff) as Hresp.
  pose proof (ntproofstr_range readbuff offset Hoff) as Hproof.
  cbv zeta in Hresp, Hproof. fold m in Hresp, Hproof.
  assert (Ho : 0 <= ntlm_offset m)
    by (subst m; cbn [ntlm_offset decode_type_3]; apply decode_int_nonneg).
  repeat split.
  - exact Hproof.
  - rewrite Hproof, range_length; lia.
  - intros i Hi. rewrite Hproof, range_nth_error.
    change (Z.to_nat 16) with 16%nat.
    apply Nat.ltb_lt in Hi. now rewrite Hi.
  - intros Hshort. rewrite Hresp. apply skipn_all2.
    etransitivity; [apply range_length_le|lia].
Qed.

Lemma ntproofstr_ignores_length_witness :
  let m := decode_type_3 short_scenario 101 in
  ntlm_length m = 4 /\
  ntproofstr m = repeat xaa 16 /\
  ntlmv2_response m = [].
Proof.
  intros m.
  assert (Hin : 101 + ntlm_offset m + 16 <= len short_scenario)
    by (vm_compute; discriminate).
  destruct (ntproofstr_ignores_length short_scenario 101 ltac:(lia) Hin)
    as (Hp & _ & _ & Hr).
  split; [reflexivity|]. split.
  - etransitivity; [exact Hp|reflexivity].
  - apply Hr. vm_compute. reflexivity.
Defined.

(** ** Text decoding *)

Lemma cons_char_raise (c : N) (r : result pystr) (e : exn) :
  cons_char c r = Raise e -> r = Raise e.
Proof. destruct r; cbn; congruence. Qed.

Lemma utf8_decode_raise_bounded (n : nat) :
  forall (b : bytes) (e : exn),
    (List.length b <= n)%nat ->
    utf8_decode b = Raise e -> e = UnicodeDecodeError.
Proof.
  induction n as [|n IH]; intros b e Hn E.
  - destruct b; [discriminate|cbn in Hn; lia].
  - destruct b as [|x0 r0]; [discriminate|].
    cbn [utf8_decode] in E. cbn [List.length] in Hn.
    repeat match type of E with
           | (if ?c then _ else _) = _ => destruct c
           | match ?l with [] => _ | _ :: _ => _ end = _ =>
               destruct l; cbn [List.length] in Hn
           | cons_char _ _ = _ =>
               apply cons_char_raise in E; apply IH in E; [exact E|lia]
           | Raise _ = Raise _ => congruence
           end.
Qed.

Lemma decode_string_raise (b : bytes) (e : exn) :
  decode_string b = Raise e -> e = UnicodeDecodeError.
Proof.
  unfold decode_string. intros E.
  destruct (utf8_decode b) as [s|e'] eqn:E'; [discriminate|].
  injection E as <-.
  now apply (utf8_decode_raise_bounded (List.length b) b e').
Qed.

(** ** Events of monadic code *)

Lemma hash_lines_app (a b : list event) :
  hash_lines (a ++ b) = hash_lines a ++ hash_lines b.
Proof.
  induction a as [|[d|h|p t] a IH]; cbn [hash_lines app]; rewrite ?IH;
    reflexivity.
Qed.

Lemma file_appends_app (a b : list event) :
  file_appends (a ++ b) = file_appends a ++ file_appends b.
Proof.
  induction a as [|[d|h|p t] a IH]; cbn [file_appends app]; rewrite ?IH;
    reflexivity.
Qed.

Lemma bind_ok {A B} (m : M A) (k : A -> M B) (a : A) :
  silent m -> snd m = Ok a -> obs (bind m k) = obs (k a).
Proof.
  destruct m as [ev r]. intros [Hh Hf] Hr. cbn [fst snd] in *. subst r.
  unfold obs, bind. destruct (k a) as [ev' r']. cbn [fst snd].
  now rewrite hash_lines_app, file_appends_app, Hh, Hf.
Qed.

Lemma bind_raise {A B} (m : M A) (k : A -> M B) (e : exn) :
  silent m -> snd m = Raise e -> obs (bind m k) = ([], [], Raise e).
Proof.
  destruct m as [ev r]. intros [Hh Hf] Hr. cbn [fst snd] in *. subst r.
  unfold obs, bind. cbn [fst snd]. now rewrite Hh, Hf.
Qed.

Section Type3Events.

Variable readbuff : bytes.
Variable outfile : pystr.
Variables verbose quiet : bool.

Lemma show_text_obs (f : field) (raw : bytes) (length offset : Z) :
  silent (show_text verbose quiet f raw length offset) /\
  (snd (show_text verbose quiet f raw length offset) = Ok tt \/
   quiet = false /\ decode_string raw = Raise UnicodeDecodeError /\
   snd (show_text verbose quiet f raw length offset)
   = Raise UnicodeDecodeError).
Proof.
  unfold show_text, silent. destruct quiet; cbn [negb when].
  - repeat split. now left.
  - destruct (decode_string raw) as [text|e] eqn:E.
    + destruct verbose; cbn; repeat split; now left.
    + apply decode_string_raise in E as E'. subst e.
      cbn. repeat split. right. repeat split.
Qed.

Lemma type_3_obs (offset : Z) (server_challenge : option bytes) :
  let m := decode_type_3 readbuff offset in
  obs (type_3 readbuff outfile verbose quiet offset server_challenge)
  = obs (prepare_hash outfile quiet m server_challenge) \/
  quiet = false /\
  obs (type_3 readbuff outfile verbose quiet offset server_challenge)
  = ([], [], Raise UnicodeDecodeError) /\
  (decode_string (domain m) = Raise UnicodeDecodeError \/
   decode_string (username m) = Raise UnicodeDecodeError \/
   decode_string (workstation m) = Raise UnicodeDecodeError).
Proof.
  intros m. unfold type_3. fold m.
  rewrite (bind_ok _ _ tt);
    [|destruct quiet; repeat split|destruct quiet; reflexivity].
  destruct (show_text_obs Domain (domain m) (domain_length m)
              (domain_offset m)) as [Hs [Hr|(Hq & Hd & Hr)]];
    [rewrite (bind_ok _ _ tt) by assumption
    |right; rewrite (bind_raise _ _ UnicodeDecodeError) by assumption; auto].
  destruct (show_text_obs Username (username m) (username_length m)
              (username_offset m)) as [Hs' [Hr'|(Hq & Hd & Hr')]];
    [rewrite (bind_ok _ _ tt) by assumption
    |right; rewrite (bind_raise _ _ UnicodeDecodeError) by assumption; auto].
  destruct (show_text_obs Workstation (workstation m) (workstation_length m)
              (workstation_offset m)) as [Hs'' [Hr''|(Hq & Hd & Hr'')]];
    [rewrite (bind_ok _ _ tt) by assumption
    |right; rewrite (bind_raise _ _ UnicodeDecodeError) by assumption; auto].
  rewrite (bind_ok _ _ tt);
    [now left
    |destruct quiet, verbose; repeat split
    |destruct quiet, verbose; reflexivity].
Qed.

Lemma show_text_raises (f : field) (raw : bytes) (length offset : Z) :
  quiet = false -> decode_string raw = Raise UnicodeDecodeError ->
  snd (show_text verbose quiet f raw length offset) = Raise UnicodeDecodeError.
Proof.
  intros -> E. unfold show_text. cbn [negb when].
  unfold lift, bind. now rewrite E.
Qed.

(** Unless [quiet] is set every text field is decoded for the diagnostics:
    one that does not decode ends the occurrence before any hash. *)
Lemma type_3_decode_error (offset : Z) (server_challenge : option bytes) :
  let m := decode_type_3 readbuff offset in
  quiet = false ->
  decode_string (domain m) = Raise UnicodeDecodeError \/
  decode_string (username m) = Raise UnicodeDecodeError \/
  decode_string (workstation m) = Raise UnicodeDecodeError ->
  obs (type_3 readbuff outfile verbose quiet offset server_challenge)
  = ([], [], Raise UnicodeDecodeError).
Proof.
  intros m Hq H. unfold type_3. fold m.
  rewrite (bind_ok _ _ tt);
    [|destruct quiet; repeat split|destruct quiet; reflexivity].
  destruct (show_text_obs Domain (domain m) (domain_length m)
              (domain_offset m)) as [Hs [Hr|(_ & _ & Hr)]];
    [|now rewrite (bind_raise _ _ UnicodeDecodeError)].
  destruct H as [H|H].
  { rewrite (show_text_raises Domain _ _ _ Hq H) in Hr. discriminate Hr. }
  rewrite (bind_ok _ _ tt) by assumption.
  destruct (show_text_obs Username (username m) (username_length m)
              (username_offset m)) as [Hs' [Hr'|(_ & _ & Hr')]];
    [|now rewrite (bind_raise _ _ UnicodeDecodeError)].
  destruct H as [H|H].
  { rewrite (show_text_raises Username _ _ _ Hq H) in Hr'. discriminate Hr'. }
  rewrite (bind_ok _ _ tt) by assumption.
  destruct (show_text_obs Workstation (workstation m) (workstation_length m)
              (workstation_offset m)) as [Hs'' _].
  now rewrite (bind_raise _ _ UnicodeDecodeError)
    by (trivial; now apply show_text_raises).
Qed.

End Type3Events.

Lemma prepare_hash_obs (outfile : pystr) (quiet : bool) (m : type3_fields)
      (server_challenge : option bytes) :
  obs (prepare_hash outfile quiet m server_challenge)
  = match server_challenge with
    | None => ([], [], Ok None)
    | Some challenge =>
        if ntlm_length m =? 0 then ([], [], Ok None)
        else if domain_length m =? 0 then
          match decode_string (username m), decode_string (workstation m) with
          | Ok u, Ok w =>
              ([record None u w challenge (ntproofstr m) (ntlmv2_response m)],
               [],
               if nonempty outfile then Raise NameError else Ok None)
          | _, _ => ([], [], Raise UnicodeDecodeError)
          end
        else
          match decode_string (domain m), decode_string (username m),
                decode_string (workstation m) with
          | Ok d, Ok u, Ok w =>
              let h := record (Some d) u w challenge (ntproofstr m)
                              (ntlmv2_response m) in
              ([h],
               if nonempty outfile then [(outfile, h ++ [10%N])] else [],
               Ok None)
          | _, _, _ => ([], [], Raise UnicodeDecodeError)
          end
    end.
Proof.
  unfold prepare_hash, obs, record.
  destruct server_challenge as [challenge|]; [|destruct quiet; reflexivity].
  destruct (ntlm_length m =? 0); [destruct quiet; reflexivity|].
  destruct (domain_length m =? 0).
  - destruct (decode_string (username m)) as [u|e] eqn:Eu;
      [|apply decode_string_raise in Eu; subst e; destruct quiet; reflexivity].
    destruct (decode_string (workstation m)) as [w|e] eqn:Ew;
      [|apply decode_string_raise in Ew; subst e; destruct quiet; reflexivity].
    destruct quiet, (nonempty outfile); reflexivity.
  - destruct (decode_string (domain m)) as [d|e] eqn:Ed;
      [|apply decode_string_raise in Ed; subst e; destruct quiet; reflexivity].
    destruct (decode_string (username m)) as [u|e] eqn:Eu;
      [|apply decode_string_raise in Eu; subst e; destruct quiet; reflexivity].
    destruct (decode_string (workstation m)) as [w|e] eqn:Ew;
      [|apply decode_string_raise in Ew; subst e; destruct quiet; reflexivity].
    destruct quiet, (nonempty outfile); reflexivity.
Qed.

(** ** Searching *)

Lemma starts_with_firstn (sub l : bytes) :
  starts_with sub l = true -> firstn (List.length sub) l = sub.
Proof.
  revert l. induction sub as [|x sub IH]; intros [|y l] H; cbn in *;
    try reflexivity; try discriminate.
  apply andb_true_iff in H as [Hx Hl].
  apply byte_dec_bl in Hx. subst y. f_equal. now apply IH.
Qed.

Lemma firstn_starts_with (sub l : bytes) :
  firstn (List.length sub) l = sub -> starts_with sub l = true.
Proof.
  revert l. induction sub as [|x sub IH]; intros [|y l] H; cbn in *;
    try reflexivity; try discriminate.
  injection H as -> H. rewrite byte_dec_lb by reflexivity. now apply IH.
Qed.

Lemma search_one (sub l : bytes) (pos : Z) :
  search sub l pos 1 = if starts_with sub l then pos else -1.
Proof.
  simpl. destruct (starts_with sub l); [reflexivity|]. now destruct l.
Qed.

(** A test of a 12-byte message header looks at one position only. *)
Lemma check_ntlm_type_starts_with (readbuff t : bytes) (offset : Z) :
  len t = 12 ->
  check_ntlm_type readbuff t offset = true ->
  starts_with t
    (skipn (Z.to_nat (find_start offset (len readbuff))) readbuff) = true.
Proof.
  intros Ht. unfold check_ntlm_type, find. rewrite Ht.
  set (n := len readbuff). assert (Hn : 0 <= n) by (subst n; unfold len; lia).
  set (s := find_start offset n). set (e := find_end (offset + 12) n).
  assert (He : e - s <= 12).
  { subst s e. unfold find_start, find_end.
    repeat match goal with
           | |- context [?a <? ?b] => destruct (Z.ltb_spec a b)
           | |- context [?a >? ?b] =>
               rewrite (Z.gtb_ltb a b); destruct (Z.ltb_spec b a)
           end; lia. }
  destruct (Z.ltb_spec (e - s) 12); [discriminate|].
  assert (Hc : Z.to_nat (e - s - 12 + 1) = 1%nat) by lia.
  rewrite Hc, search_one.
  destruct (starts_with t (skipn (Z.to_nat s) readbuff)) eqn:Es;
    [reflexivity|discriminate].
Qed.

Lemma check_ntlm_type_nonneg (readbuff t : bytes) (offset : Z) :
  len t = 12 -> 0 <= offset ->
  check_ntlm_type readbuff t offset = true ->
  firstn 12 (skipn (Z.to_nat offset) readbuff) = t /\
  offset + 12 <= len readbuff.
Proof.
  intros Ht Hoff H.
  pose proof (check_ntlm_type_starts_with _ _ _ Ht H) as Hs.
  unfold find_start in Hs. destruct (Z.ltb_spec offset 0); [lia|].
  apply starts_with_firstn in Hs.
  replace (List.length t) with 12%nat in Hs by (unfold len in Ht; lia).
  split; [exact Hs|].
  assert (List.length (firstn 12 (skipn (Z.to_nat offset) readbuff)) = 12%nat)
    by (rewrite Hs; unfold len in Ht; lia).
  rewrite length_firstn, length_skipn in H1. unfold len. lia.
Qed.

(** The three message headers exclude one another. *)
Lemma check_ntlm_type_exclusive (readbuff t t' : bytes) (offset : Z) :
  len t = 12 -> len t' = 12 -> t <> t' ->
  check_ntlm_type readbuff t offset = true ->
  check_ntlm_type readbuff t' offset = false.
Proof.
  intros Ht Ht' Hne H.
  destruct (check_ntlm_type readbuff t' offset) eqn:H'; [|reflexivity].
  apply check_ntlm_type_starts_with in H; trivial.
  apply check_ntlm_type_starts_with in H'; trivial.
  apply starts_with_firstn in H, H'.
  replace (List.length t') with (List.length t) in H'
    by (unfold len in *; lia).
  congruence.
Qed.

(** No test succeeds once the search has failed. *)
Lemma check_ntlm_type_not_found (readbuff t : bytes) :
  len t = 12 -> check_ntlm_type readbuff t (-1) = false.
Proof.
  intros Ht. unfold check_ntlm_type, find. rewrite Ht.
  set (n := len readbuff). assert (Hn : 0 <= n) by (subst n; unfold len; lia).
  assert (He : find_end (-1 + 12) n - find_start (-1) n < 12).
  { unfold find_start, find_end.
    repeat match goal with
           | |- context [?a <? ?b] => destruct (Z.ltb_spec a b)
           | |- context [?a >? ?b] =>
               rewrite (Z.gtb_ltb a b); destruct (Z.ltb_spec b a)
           end; lia. }
  destruct (Z.ltb_spec (find_end (-1 + 12) n - find_start (-1) n) 12);
    [reflexivity|lia].
Qed.

(** ** One occurrence *)

Section Occurrence.

Variable readbuff : bytes.
Variable outfile : pystr.
Variables verbose quiet : bool.

Lemma check_message_types_obs (offset : Z) (server_challenge : option bytes) :
  obs (check_message_types readbuff outfile verbose quiet offset
                           server_challenge)
  = if check_ntlm_type readbuff ntlmssp_type_3 offset
    then obs (type_3 readbuff outfile verbose quiet offset
                     (after_type_2 readbuff offset server_challenge))
    else ([], [], Ok (after_type_2 readbuff offset server_challenge)).
Proof.
  unfold check_message_types, after_type_2.
  rewrite (bind_ok _ _ tt);
    [|destruct (check_ntlm_type readbuff ntlmssp_type_1 offset), quiet;
      repeat split..].
  rewrite (bind_ok _ _ (after_type_2 readbuff offset server_challenge));
    unfold after_type_2;
    [|destruct (check_ntlm_type readbuff ntlmssp_type_2 offset), quiet;
      repeat split..].
  now destruct (check_ntlm_type readbuff ntlmssp_type_3 offset).
Qed.

Lemma type_2_sets_challenge (offset : Z) (server_challenge : option bytes) :
  check_ntlm_type readbuff ntlmssp_type_2 offset = true ->
  obs (check_message_types readbuff outfile verbose quiet offset
                           server_challenge)
  = ([], [], Ok (Some (slice readbuff (offset + 24) (offset + 32)))).
Proof.
  intros H. rewrite check_message_types_obs. unfold after_type_2. rewrite H.
  rewrite (check_ntlm_type_exclusive readbuff ntlmssp_type_2 ntlmssp_type_3);
    trivial; discriminate.
Qed.

Lemma type_3_handled (offset : Z) (server_challenge : option bytes) :
  check_ntlm_type readbuff ntlmssp_type_3 offset = true ->
  obs (check_message_types readbuff outfile verbose quiet offset
                           server_challenge)
  = obs (type_3 readbuff outfile verbose quiet offset server_challenge).
Proof.
  intros H. rewrite check_message_types_obs. unfold after_type_2. rewrite H.
  rewrite (check_ntlm_type_exclusive readbuff ntlmssp_type_3 ntlmssp_type_2);
    trivial; discriminate.
Qed.

End Occurrence.

Lemma obs_hash_lines {A} (m m' : M A) :
  obs m = obs m' -> hash_lines (fst m) = hash_lines (fst m').
Proof. unfold obs. congruence. Qed.

Lemma obs_file_appends {A} (m m' : M A) :
  obs m = obs m' -> file_appends (fst m) = file_appends (fst m').
Proof. unfold obs. congruence. Qed.

Lemma obs_result {A} (m m' : M A) : obs m = obs m' -> snd m = snd m'.
Proof. unfold obs. congruence. Qed.

(** A pending challenge, a nonzero NTLM length and text fields that decode
    are all it takes for a Type 3 occurrence to print its record. *)
Lemma type_3_prints_record (readbuff : bytes) (outfile : pystr)
      (verbose quiet : bool) (offset : Z) (challenge : bytes)
      (d u w : pystr) :
  let m := decode_type_3 readbuff offset in
  ntlm_length m <> 0 ->
  decode_string (domain m) = Ok d ->
  decode_string (username m) = Ok u ->
  decode_string (workstation m) = Ok w ->
  hash_lines
    (fst (type_3 readbuff outfile verbose quiet offset (Some challenge)))
  = [record (if domain_length m =? 0 then None else Some d) u w challenge
            (ntproofstr m) (ntlmv2_response m)].
Proof.
  intros m Hn Hd Hu Hw.
  destruct (type_3_obs readbuff outfile verbose quiet offset (Some challenge))
    as [E|(_ & _ & [E|[E|E]])]; fold m in E; try congruence.
  rewrite (obs_hash_lines _ _ E).
  pose proof (prepare_hash_obs outfile quiet m (Some challenge)) as E'.
  apply (f_equal (fun o => fst (fst o))) in E'. cbn [obs fst] in E'.
  rewrite E'. destruct (Z.eqb_spec (ntlm_length m) 0); [contradiction|].
  rewrite Hd, Hu, Hw. now destruct (domain_length m =? 0), (nonempty outfile).
Qed.

(** C8: a Type 3 occurrence whose NTLM-response length is 0 prints no hash
    record, whatever the pending challenge is; and a hash record that is
    printed has no domain segment and no backslash when the decoded domain
    length is 0, and is DOMAIN\USERNAME::... when it is not. *)
Theorem hash_record_shape (readbuff : bytes) (outfile : pystr)
        (verbose quiet : bool) (offset : Z)
        (server_challenge : option bytes) :
  let m := decode_type_3 readbuff offset in
  let printed :=
    hash_lines
      (fst (type_3 readbuff outfile verbose quiet offset server_challenge)) in
  (ntlm_length m = 0 -> printed = []) /\
  (forall h : pystr, In h printed ->
     printed = [h] /\
     exists challenge u w,
       server_challenge = Some challenge /\
       ntlm_length m <> 0 /\
       decode_string (username m) = Ok u /\
       decode_string (workstation m) = Ok w /\
       ((domain_length m = 0 /\
         h = record None u w challenge (ntproofstr m) (ntlmv2_response m)) \/
        (domain_length m <> 0 /\
         exists d, decode_string (domain m) = Ok d /\
           h = record (Some d) u w challenge (ntproofstr m)
                      (ntlmv2_response m)))).
Proof.
  intros m printed.
  assert (Hp : printed = [] \/
               printed = hash_lines
                           (fst (prepare_hash outfile quiet m server_challenge))).
  { destruct (type_3_obs readbuff outfile verbose quiet offset
                         server_challenge) as [E|(_ & E & _)].
    - right. apply obs_hash_lines. exact E.
    - left. apply (f_equal (fun o => fst (fst o))) in E. exact E. }
  pose proof (prepare_hash_obs outfile quiet m server_challenge) as E.
  apply (f_equal (fun o => fst (fst o))) in E. cbn [obs fst] in E.
  split.
  - intros Hnull. destruct Hp as [Hp|Hp]; [exact Hp|].
    rewrite Hp, E. destruct server_challenge; [|reflexivity].
    now rewrite Hnull.
  - intros h Hin. destruct Hp as [Hp|Hp]; [rewrite Hp in Hin; destruct Hin|].
    rewrite Hp in *. rewrite E in *. clear E Hp.
    destruct server_challenge as [challenge|]; [|destruct Hin].
    destruct (Z.eqb_spec (ntlm_length m) 0) as [Hn|Hn]; [destruct Hin|].
    destruct (Z.eqb_spec (domain_length m) 0) as [Hd|Hd].
    + destruct (decode_string (username m)) as [u|e]; [|destruct Hin].
      destruct (decode_string (workstation m)) as [w|e]; [|destruct Hin].
      destruct Hin as [<-|[]]. split; [reflexivity|].
      exists challenge, u, w. auto 10.
    + destruct (decode_string (domain m)) as [d|e]; [|destruct Hin].
      destruct (decode_string (username m)) as [u|e]; [|destruct Hin].
      destruct (decode_string (workstation m)) as [w|e]; [|destruct Hin].
      destruct Hin as [<-|[]]. split; [reflexivity|].
      exists challenge, u, w. repeat split; trivial.
      right. split; [exact Hd|]. now exists d.
Qed.

Lemma hash_record_shape_witness :
  hash_lines
    (fst (type_3 null_session_scenario [] false true 101
                 (Some [x01; x02; x03; x04; x05; x06; x07; x08]))) = [] /\
  exists d u w,
    decode_string (domain (decode_type_3 domain_scenario 101)) = Ok d /\
    domain_record
    = record (Some d) u w [x01; x02; x03; x04; x05; x06; x07; x08]
             (ntproofstr (decode_type_3 domain_scenario 101))
             (ntlmv2_response (decode_type_3 domain_scenario 101)).
Proof.
  split.
  - apply (hash_record_shape null_session_scenario [] false true 101).
    reflexivity.
  - destruct (hash_record_shape domain_scenario [] false true 101
                (Some [x01; x02; x03; x04; x05; x06; x07; x08]))
      as [_ H].
    destruct (H domain_record) as (_ & c & u & w & Hc & _ & _ & _ & [[Hd _]|[_ Hd]]).
    + vm_compute. left. reflexivity.
    + vm_compute in Hd. discriminate Hd.
    + injection Hc as <-. destruct Hd as (d & Hd & Hr).
      exists d, u, w. split; assumption.
Defined.

(** ** The pending challenge *)

Lemma prepare_hash_clears (outfile : pystr) (quiet : bool) (m : type3_fields)
      (server_challenge sc' : option bytes) :
  snd (prepare_hash outfile quiet m server_challenge) = Ok sc' -> sc' = None.
Proof.
  pose proof (prepare_hash_obs outfile quiet m server_challenge) as E.
  apply (f_equal snd) in E. cbn [obs snd] in E. rewrite E. clear E.
  destruct server_challenge as [challenge|]; [|now intros [= <-]].
  destruct (ntlm_length m =? 0); [now intros [= <-]|].
  destruct (domain_length m =? 0).
  - destruct (decode_string (username m)); [|discriminate].
    destruct (decode_string (workstation m)); [|discriminate].
    destruct (nonempty outfile); [discriminate|now intros [= <-]].
  - destruct (decode_string (domain m)); [|discriminate].
    destruct (decode_string (username m)); [|discriminate].
    destruct (decode_string (workstation m)); [|discriminate].
    now intros [= <-].
Qed.

Lemma type_3_clears (readbuff : bytes) (outfile : pystr)
      (verbose quiet : bool) (offset : Z)
      (server_challenge sc' : option bytes) :
  snd (type_3 readbuff outfile verbose quiet offset server_challenge) = Ok sc' ->
  sc' = None.
Proof.
  destruct (type_3_obs readbuff outfile verbose quiet offset server_challenge)
    as [E|(_ & E & _)].
  - apply obs_result in E. rewrite E. apply prepare_hash_clears.
  - apply (f_equal snd) in E. cbn [obs snd] in E. rewrite E. discriminate.
Qed.

Lemma type_3_without_challenge (readbuff : bytes) (outfile : pystr)
      (verbose quiet : bool) (offset : Z) :
  silent (type_3 readbuff outfile verbose quiet offset None).
Proof.
  unfold silent.
  destruct (type_3_obs readbuff outfile verbose quiet offset None)
    as [E|(_ & E & _)].
  - rewrite (obs_hash_lines _ _ E), (obs_file_appends _ _ E).
    destruct quiet; split; reflexivity.
  - apply (f_equal fst) in E. cbn [obs fst] in E.
    injection E as -> ->. split; reflexivity.
Qed.

(** C6: the scan holds one optional pending challenge.  A Type 2 occurrence
    sets it to the 8 bytes at +24, whatever it was before; after a Type 3
    occurrence has been processed it is cleared, whether or not a hash was
    printed; a Type 3 occurrence met with no pending challenge prints no
    hash record and appends none; and no occurrence changes the pending
    challenge in any other way. *)
Theorem pending_challenge_invariant (readbuff : bytes) (outfile : pystr)
        (verbose quiet : bool) (offset : Z)
        (server_challenge : option bytes) :
  let step :=
    check_message_types readbuff outfile verbose quiet offset
                        server_challenge in
  (check_ntlm_type readbuff ntlmssp_type_2 offset = true ->
   snd step = Ok (Some (slice readbuff (offset + 24) (offset + 32)))) /\
  (check_ntlm_type readbuff ntlmssp_type_3 offset = true ->
   (forall sc', snd step = Ok sc' -> sc' = None) /\
   (server_challenge = None ->
    hash_lines (fst step) = [] /\ file_appends (fst step) = [])) /\
  (forall sc', snd step = Ok sc' ->
     sc' = server_challenge \/
     sc' = Some (slice readbuff (offset + 24) (offset + 32)) \/
     sc' = None).
Proof.
  intros step. subst step. split; [|split].
  - intros H2.
    pose proof (type_2_sets_challenge readbuff outfile verbose quiet offset
                                      server_challenge H2) as E.
    apply (f_equal snd) in E. exact E.
  - intros H3.
    pose proof (type_3_handled readbuff outfile verbose quiet offset
                               server_challenge H3) as E.
    split.
    + intros sc'. rewrite (obs_result _ _ E). apply type_3_clears.
    + intros ->. rewrite (obs_hash_lines _ _ E), (obs_file_appends _ _ E).
      apply type_3_without_challenge.
  - intros sc' Hs.
    pose proof (check_message_types_obs readbuff outfile verbose quiet offset
                                        server_challenge) as E.
    destruct (check_ntlm_type readbuff ntlmssp_type_3 offset).
    + right. right. apply obs_result in E.
      rewrite E in Hs. now apply type_3_clears in Hs.
    + apply (f_equal snd) in E. cbn [obs snd] in E.
      rewrite E in Hs. injection Hs as <-. unfold after_type_2.
      destruct (check_ntlm_type readbuff ntlmssp_type_2 offset); auto.
Qed.

Lemma pending_challenge_invariant_witness :
  snd (check_message_types shifted_scenario [] false true 1 (Some [xaa]))
  = Ok (Some [x01; x02; x03; x04; x05; x06; x07; x08]) /\
  snd (check_message_types shifted_scenario [] false true 101
         (Some [x01; x02; x03; x04; x05; x06; x07; x08])) = Ok None /\
  hash_lines (fst (check_message_types shifted_scenario [] false true 101 None))
  = [].
Proof.
  split; [|split].
  - apply (pending_challenge_invariant shifted_scenario [] false true 1
             (Some [xaa])).
    reflexivity.
  - destruct (pending_challenge_invariant shifted_scenario [] false true 101
                (Some [x01; x02; x03; x04; x05; x06; x07; x08]))
      as (_ & H & _).
    destruct (H eq_refl) as [Hc _].
    destruct (snd (check_message_types shifted_scenario [] false true 101
                     (Some [x01; x02; x03; x04; x05; x06; x07; x08])))
      as [sc'|e] eqn:E.
    + f_equal. apply Hc. reflexivity.
    + vm_compute in E. discriminate E.
  - destruct (pending_challenge_invariant shifted_scenario [] false true 101
                None) as (_ & H & _).
    destruct (H eq_refl) as [_ Hn]. apply Hn. reflexivity.
Defined.

(** ** The scan of a buffer that begins with a signature *)

Lemma scenario_loop_body (verbose quiet : bool)
      (server_challenge : option bytes) :
  exists ev,
    loop_body scenario [] verbose quiet 0 server_challenge
    = (ev, Ok (0, Some challenge_0108)) /\
    hash_lines ev = [] /\ file_appends ev = [].
Proof.
  destruct verbose, quiet; eexists; (split; [vm_compute; reflexivity|]);
    split; reflexivity.
Qed.

Lemma scenario_scan_loop (verbose quiet : bool) (fuel : nat) :
  forall server_challenge : option bytes,
    hash_lines (fst (scan_loop scenario [] verbose quiet fuel 0
                               server_challenge)) = [] /\
    exists sc,
      snd (scan_loop scenario [] verbose quiet fuel 0 server_challenge)
      = Running 0 sc.
Proof.
  induction fuel as [|fuel IH]; intros server_challenge.
  - cbn. eauto.
  - cbn [scan_loop]. change (0 =? -1) with false. cbv iota.
    destruct (scenario_loop_body verbose quiet server_challenge)
      as (ev & -> & Hh & _).
    destruct (IH (Some challenge_0108)) as (Hh' & sc & Hr).
    destruct (scan_loop scenario [] verbose quiet fuel 0
                        (Some challenge_0108)) as [ev' o].
    cbn [fst snd] in *. rewrite hash_lines_app, Hh, Hh'. eauto.
Qed.

(** C1, on the buffer of the concrete scenario: the Type 2 message lies at
    offset 0, the search position never leaves 0, and however many
    iterations the loop is given it is still running, the Type 3 message at
    offset 100 not reached and no hash record printed. *)
Theorem scenario_emits_nothing (verbose quiet : bool) (fuel : nat) :
  hash_lines (fst (searchCaptureFile scenario [] verbose quiet fuel 0)) = [] /\
  exists sc,
    snd (searchCaptureFile scenario [] verbose quiet fuel 0) = Running 0 sc.
Proof. apply scenario_scan_loop. Qed.

(** The same two messages one byte further on give the record of the
    scenario, and the scan ends. *)
Lemma shifted_scenario_record (verbose quiet : bool) :
  hash_lines (fst (searchCaptureFile shifted_scenario [] verbose quiet 3 0))
  = [scenario_record] /\
  snd (searchCaptureFile shifted_scenario [] verbose quiet 3 0) = Finished.
Proof. destruct verbose, quiet; vm_compute; split; reflexivity. Qed.

(** C3, on a buffer that is the signature alone: the signature is found at
    offset 0, the search position is not advanced "at the start of the
    file", and the loop is still running after any number of iterations. *)
Theorem signature_at_start_loops (outfile : pystr) (verbose quiet : bool)
        (fuel : nat) :
  searchCaptureFile signature_only outfile verbose quiet fuel 0
  = ([], Running 0 None).
Proof.
  unfold searchCaptureFile. induction fuel as [|fuel IH]; [reflexivity|].
  cbn [scan_loop]. change (0 =? -1) with false. cbv iota.
  replace (loop_body signature_only outfile verbose quiet 0 None)
    with (@nil event, Ok (0, @None bytes))
    by (destruct verbose, quiet; vm_compute; reflexivity).
  now rewrite IH.
Qed.

(** C4, on the buffer of the concrete scenario: the offsets the loop visits
    are 0, 0, 0, ...; they do not increase, and the signature at offset 100
    is never reported. *)
Theorem occurrences_repeat_at_start (fuel : nat) :
  occurrences scenario fuel 0 = repeat 0 fuel /\
  find scenario ntlmssp_sig 8 None = 100 /\
  ~ In 100 (occurrences scenario fuel 0).
Proof.
  assert (H : occurrences scenario fuel 0 = repeat 0 fuel).
  { induction fuel as [|fuel IH]; [reflexivity|].
    cbn [occurrences repeat]. change (0 =? -1) with false. cbv iota.
    replace (next_offset scenario 0) with 0 by (vm_compute; reflexivity).
    cbv zeta. change (0 =? -1) with false. cbv iota. now rewrite IH. }
  split; [exact H|]. split; [vm_compute; reflexivity|].
  rewrite H. intros Hin. apply repeat_spec in Hin. discriminate Hin.
Qed.

(** With the same messages one byte further on the two occurrences are
    reported in order. *)
Lemma shifted_scenario_occurrences :
  occurrences shifted_scenario 3 0 = [1; 101].
Proof. vm_compute. reflexivity. Qed.

(** ** The output file *)

(** C5, on the shifted scenario with an output file configured: the record
    has domain length 0; it is printed, then the call of [writeOutfile]
    names the unbound [output] and the scan ends in NameError with nothing
    appended to the file. *)
Theorem zero_domain_record_not_appended (verbose quiet : bool) :
  let r := searchCaptureFile shifted_scenario (lit "hashes.txt") verbose quiet
                             3 0 in
  hash_lines (fst r) = [scenario_record] /\
  file_appends (fst r) = [] /\
  snd r = Aborted NameError.
Proof. destruct verbose, quiet; vm_compute; repeat split. Qed.

(** With a domain of nonzero length the record is printed and appended. *)
Lemma nonzero_domain_record_appended (verbose quiet : bool) :
  let r := searchCaptureFile domain_scenario (lit "hashes.txt") verbose quiet
                             3 0 in
  hash_lines (fst r) = [domain_record] /\
  file_appends (fst r) = [(lit "hashes.txt", domain_record ++ [10%N])] /\
  snd r = Finished.
Proof. destruct verbose, quiet; vm_compute; repeat split. Qed.

(** ** Decoding text *)

Lemma utf8_decode_ascii (b : bytes) :
  ascii_bytes b -> utf8_decode b = Ok (map Byte.to_N b).
Proof.
  induction 1 as [|x b Hx Hb IH]; [reflexivity|].
  cbn [utf8_decode map]. apply N.ltb_lt in Hx. now rewrite Hx, IH.
Qed.

Lemma utf16le_ascii (s : pystr) :
  ascii_text s ->
  ascii_bytes (utf16le s) /\ strip_nul (map Byte.to_N (utf16le s)) = s.
Proof.
  induction 1 as [|c s Hc Hs [IHa IHs]]; [split; [constructor|reflexivity]|].
  cbn [utf16le flat_map]. fold (utf16le s).
  destruct (Byte.of_N c) as [x|] eqn:E.
  - apply Byte.to_of_N in E. cbn [app map]. split.
    + repeat constructor; [lia|exact IHa].
    + unfold strip_nul in *. cbn [filter]. rewrite E.
      destruct (N.eqb_spec c 0); [lia|]. cbn [negb Byte.to_N].
      change (0 =? 0)%N with true. cbn [negb]. now rewrite IHs.
  - apply Byte.of_N_None_iff in E. lia.
Qed.

Lemma decode_string_ascii (b : bytes) :
  ascii_bytes b -> decode_string b = Ok (strip_nul (map Byte.to_N b)).
Proof.
  intros H. unfold decode_string. now rewrite utf8_decode_ascii.
Qed.

(** C2, as the code has it: the text fields are decoded as strict UTF-8 and
    the NUL characters are then removed.  A field whose bytes are all below
    0x80 decodes to its non-NUL bytes; in particular the UTF-16LE encoding
    of an ASCII text decodes to that text; and a Type 3 occurrence whose
    three text fields are such bytes does not end in UnicodeDecodeError.
    Nothing stands in for a text that does not decode: unless [quiet] is
    set, an occurrence with such a field ends in UnicodeDecodeError, no
    hash printed. *)
Theorem text_fields_decode (readbuff : bytes) (outfile : pystr)
        (verbose quiet : bool) (offset : Z)
        (server_challenge : option bytes) :
  let m := decode_type_3 readbuff offset in
  (forall b : bytes,
     ascii_bytes b -> decode_string b = Ok (strip_nul (map Byte.to_N b))) /\
  (forall s : pystr, ascii_text s -> decode_string (utf16le s) = Ok s) /\
  (ascii_bytes (domain m) -> ascii_bytes (username m) ->
   ascii_bytes (workstation m) ->
   snd (type_3 readbuff outfile verbose quiet offset server_challenge)
   <> Raise UnicodeDecodeError) /\
  (quiet = false ->
   decode_string (domain m) = Raise UnicodeDecodeError \/
   decode_string (username m) = Raise UnicodeDecodeError \/
   decode_string (workstation m) = Raise UnicodeDecodeError ->
   obs (type_3 readbuff outfile verbose quiet offset server_challenge)
   = ([], [], Raise UnicodeDecodeError)).
Proof.
  intros m. split; [exact decode_string_ascii|]. split; [|split].
  3: now apply type_3_decode_error.
  - intros s Hs. destruct (utf16le_ascii s Hs) as [Ha Hn].
    now rewrite decode_string_ascii, Hn.
  - intros Hd Hu Hw.
    apply decode_string_ascii in Hd, Hu, Hw.
    destruct (type_3_obs readbuff outfile verbose quiet offset
                         server_challenge) as [E|(_ & _ & [E|[E|E]])];
      fold m in E; try congruence.
    apply obs_result in E. rewrite E. clear E.
    pose proof (prepare_hash_obs outfile quiet m server_challenge) as E.
    apply (f_equal snd) in E. cbn [obs snd] in E. rewrite E. clear E.
    rewrite Hd, Hu, Hw.
    destruct server_challenge; [|discriminate].
    destruct (ntlm_length m =? 0); [discriminate|].
    destruct (domain_length m =? 0); [|discriminate].
    destruct (nonempty outfile); discriminate.
Qed.

Lemma text_fields_decode_witness :
  decode_string bob = Ok (lit "bob") /\
  decode_string (utf16le (lit "WS1")) = Ok (lit "WS1") /\
  snd (type_3 shifted_scenario [] false true 101 (Some challenge_0108))
  <> Raise UnicodeDecodeError /\
  obs (type_3 latin1_scenario [] false false 101 (Some challenge_0108))
  = ([], [], Raise UnicodeDecodeError).
Proof.
  destruct (text_fields_decode shifted_scenario [] false true 101
              (Some challenge_0108)) as (Hb & Hs & Ht & _).
  destruct (text_fields_decode latin1_scenario [] false false 101
              (Some challenge_0108)) as (_ & _ & _ & Hr).
  split; [|split; [|split]].
  - rewrite (Hb bob); [reflexivity|].
    unfold ascii_bytes. repeat constructor.
  - apply Hs. unfold ascii_text. repeat constructor.
  - apply Ht; vm_compute; repeat constructor.
  - apply Hr; [reflexivity|]. right. left. reflexivity.
Defined.

(** Against C2: the username e-acute, o, b in UTF-16LE is not well-formed
    UTF-8; decoding it raises and the scan ends there, no hash printed. *)
Lemma latin1_username_aborts_scan :
  username (decode_type_3 latin1_scenario 101)
  = [xe9; x00; x6f; x00; x62; x00] /\
  decode_string [xe9; x00; x6f; x00; x62; x00] = Raise UnicodeDecodeError /\
  searchCaptureFile latin1_scenario [] false true 3 0
  = ([], Aborted UnicodeDecodeError).
Proof. vm_compute. repeat split. Qed.

(** ** Occurrences near the end of the buffer *)

Lemma slice_past_end (b : bytes) (start stop : Z) :
  0 <= start -> start <= stop -> len b <= start -> slice b start stop = [].
Proof.
  intros. rewrite slice_range by lia. now apply range_past_end.
Qed.

Lemma truncated_type_3_fields (readbuff : bytes) (offset : Z) :
  0 <= offset -> len readbuff <= offset + 20 ->
  let m := decode_type_3 readbuff offset in
  ntlm_length m = 0 /\ domain m = [] /\ username m = [] /\ workstation m = [].
Proof.
  intros Hoff Hlen. cbn [decode_type_3 ntlm_length domain username workstation].
  repeat match goal with
         | |- context [slice readbuff ?a ?b] =>
             rewrite (slice_past_end readbuff a b) by lia
         end.
  cbn [decode_int].
  repeat match goal with
         | |- context [slice readbuff ?a ?b] =>
             rewrite (slice_backwards readbuff a b) by lia
         end.
  repeat split.
Qed.

Lemma loop_body_obs (readbuff : bytes) (outfile : pystr)
      (verbose quiet : bool) (offset : Z) (server_challenge : option bytes) :
  let found := next_offset readbuff offset in
  let step := check_message_types readbuff outfile verbose quiet found
                                  server_challenge in
  fst (loop_body readbuff outfile verbose quiet offset server_challenge)
  = fst step /\
  snd (loop_body readbuff outfile verbose quiet offset server_challenge)
  = match snd step with
    | Ok sc => Ok (found, sc)
    | Raise e => Raise e
    end.
Proof.
  intros found step. unfold loop_body. fold found. fold step.
  destruct step as [ev [sc|e]]; cbn [bind ret fst snd]; [|split; reflexivity].
  now rewrite app_nil_r.
Qed.

(** C9, as the code has it: no read is checked against the buffer length; a
    slice returns the bytes of its range that the buffer has, none when the
    range begins at or after the buffer end, and an absent length or offset
    decodes as 0.  A Type 2 occurrence never raises and prints no hash.  A
    Type 3 occurrence prints its record from whatever the slices gave, once
    a challenge is pending, the decoded NTLM length is not 0 and the text
    decodes.  A Type 3 occurrence whose NTLM-response descriptor lies past
    the buffer end prints no hash, raises nothing and leaves no pending
    challenge, and the loop goes on to the next search. *)
Theorem truncated_occurrence (readbuff : bytes) (outfile : pystr)
        (verbose quiet : bool) (offset : Z)
        (server_challenge : option bytes) :
  0 <= offset ->
  let step := check_message_types readbuff outfile verbose quiet offset
                                  server_challenge in
  (forall start n : Z, 0 <= start -> 0 <= n ->
     slice readbuff start (start + n) = range readbuff start n /\
     (len readbuff <= start -> slice readbuff start (start + n) = []) /\
     (len readbuff <= start ->
      decode_int (slice readbuff start (start + n)) = 0)) /\
  (check_ntlm_type readbuff ntlmssp_type_2 offset = true ->
   obs step = ([], [], Ok (Some (slice readbuff (offset + 24) (offset + 32))))) /\
  (check_ntlm_type readbuff ntlmssp_type_3 offset = true ->
   forall (challenge : bytes) (d u w : pystr),
     let m := decode_type_3 readbuff offset in
     server_challenge = Some challenge ->
     ntlm_length m <> 0 ->
     decode_string (domain m) = Ok d ->
     decode_string (username m) = Ok u ->
     decode_string (workstation m) = Ok w ->
     hash_lines (fst step)
     = [record (if domain_length m =? 0 then None else Some d) u w challenge
               (ntproofstr m) (ntlmv2_response m)]) /\
  (check_ntlm_type readbuff ntlmssp_type_3 offset = true ->
   len readbuff <= offset + 20 ->
   obs step = ([], [], Ok None) /\
   forall (fuel : nat) (previous : Z),
     previous <> -1 ->
     next_offset readbuff previous = offset ->
     exists ev,
       hash_lines ev = [] /\ file_appends ev = [] /\
       scan_loop readbuff outfile verbose quiet (S fuel) previous
                 server_challenge
       = (ev ++ fst (scan_loop readbuff outfile verbose quiet fuel offset None),
          snd (scan_loop readbuff outfile verbose quiet fuel offset None))).
Proof.
  intros Hoff step. subst step. split; [|split; [|split]].
  - intros start n Hs Hn. split; [|split].
    + rewrite slice_range by lia. f_equal. lia.
    + intros. apply slice_past_end; lia.
    + intros. rewrite slice_past_end by lia. reflexivity.
  - apply type_2_sets_challenge.
  - intros H3 challenge d u w m -> Hn Hd Hu Hw.
    rewrite (obs_hash_lines _ _
               (type_3_handled readbuff outfile verbose quiet offset
                               (Some challenge) H3)).
    now apply type_3_prints_record.
  - intros H3 Hlen.
    assert (E : obs (check_message_types readbuff outfile verbose quiet offset
                                         server_challenge)
                = ([], [], Ok None)).
    { rewrite type_3_handled by assumption.
      destruct (truncated_type_3_fields readbuff offset Hoff Hlen)
        as (Hn & Hd & Hu & Hw).
      destruct (type_3_obs readbuff outfile verbose quiet offset
                           server_challenge) as [E|(_ & _ & [E|[E|E]])].
      - rewrite E, prepare_hash_obs, Hn.
        now destruct server_challenge.
      - rewrite Hd in E. discriminate E.
      - rewrite Hu in E. discriminate E.
      - rewrite Hw in E. discriminate E. }
    split; [exact E|].
    intros fuel previous Hprev Hnext.
    destruct (loop_body_obs readbuff outfile verbose quiet previous
                            server_challenge) as [Hf Hr].
    rewrite Hnext in Hf, Hr.
    unfold obs in E. injection E as Eh Ef Er. rewrite Er in Hr.
    exists (fst (check_message_types readbuff outfile verbose quiet offset
                                     server_challenge)).
    split; [exact Eh|]. split; [exact Ef|].
    cbn [scan_loop]. destruct (Z.eqb_spec previous (-1)); [contradiction|].
    destruct (loop_body readbuff outfile verbose quiet previous
                        server_challenge) as [ev r].
    cbn [fst snd] in Hf, Hr. subst ev r.
    now destruct (scan_loop readbuff outfile verbose quiet fuel offset None).
Qed.

Lemma truncated_occurrence_witness :
  slice cut_scenario 121 (121 + 2) = [] /\
  obs (check_message_types cut_scenario [] false true 1 None)
  = ([], [], Ok (Some challenge_0108)) /\
  hash_lines
    (fst (check_message_types truncated_scenario [] false true 101
                              (Some challenge_0108)))
  = [lit ":::0102030405060708::"] /\
  obs (check_message_types cut_scenario [] false true 101
                           (Some challenge_0108))
  = ([], [], Ok None) /\
  snd (scan_loop cut_scenario [] false true 2 1 (Some challenge_0108))
  = Finished.
Proof.
  destruct (truncated_occurrence cut_scenario [] false true 1 None
              ltac:(lia)) as (_ & H2 & _ & _).
  destruct (truncated_occurrence truncated_scenario [] false true 101
              (Some challenge_0108) ltac:(lia)) as (_ & _ & Hrec & _).
  destruct (truncated_occurrence cut_scenario [] false true 101
              (Some challenge_0108) ltac:(lia)) as (Hs & _ & _ & H3).
  destruct (Hs 121 2 ltac:(lia) ltac:(lia)) as (_ & Hempty & _).
  destruct H3 as [Hobs Hloop];
    [reflexivity|vm_compute; discriminate|].
  destruct (Hloop 1%nat 1 ltac:(lia) eq_refl) as (ev & _ & _ & E).
  split; [apply Hempty; vm_compute; discriminate|].
  split; [apply H2; reflexivity|].
  split.
  { rewrite (Hrec eq_refl challenge_0108 [] [] []);
      try reflexivity.
    vm_compute. discriminate. }
  split; [exact Hobs|].
  rewrite E. reflexivity.
Defined.

(** Against C9: in the truncated scenario every range the Type 3 message
    names lies past the end of the buffer, and the occurrence still prints
    a hash record, made of the pending challenge and empty fields. *)
Lemma truncated_type3_emits_hash :
  let m := decode_type_3 truncated_scenario 101 in
  len truncated_scenario < 101 + username_offset m + username_length m /\
  len truncated_scenario < 101 + ntlm_offset m + ntlm_length m /\
  hash_lines (fst (searchCaptureFile truncated_scenario [] false true 3 0))
  = [lit ":::0102030405060708::"] /\
  snd (searchCaptureFile truncated_scenario [] false true 3 0) = Finished.
Proof. vm_compute. repeat split. Qed.

(** ** The search loop *)

Lemma starts_with_length (sub l : bytes) :
  starts_with sub l = true -> (List.length sub <= List.length l)%nat.
Proof.
  intros H. apply starts_with_firstn in H.
  apply (f_equal (@List.length byte)) in H.
  rewrite length_firstn in H. lia.
Qed.

Lemma search_spec (sub : bytes) (n : nat) :
  forall (l : bytes) (pos : Z),
    (search sub l pos n = -1 /\
     forall k, (k < n)%nat -> starts_with sub (skipn k l) = false) \/
    (exists k, (k < n)%nat /\
       search sub l pos n = pos + Z.of_nat k /\
       starts_with sub (skipn k l) = true /\
       forall j, (j < k)%nat -> starts_with sub (skipn j l) = false).
Proof.
  induction n as [|n IH]; intros l pos.
  - left. split; [reflexivity|]. intros k Hk. lia.
  - cbn [search]. destruct (starts_with sub l) eqn:E.
    + right. exists 0%nat. repeat split; [lia|lia|exact E|].
      intros j Hj. lia.
    + destruct l as [|x l].
      * left. split; [reflexivity|]. intros k _. now destruct k.
      * destruct (IH l (pos + 1)) as [[Hr Hn]|(k & Hk & Hr & Hs & Hn)].
        -- left. split; [exact Hr|]. intros [|k] Hk; [exact E|].
           apply Hn. lia.
        -- right. exists (S k). repeat split; [lia|lia|exact Hs|].
           intros [|j] Hj; [exact E|]. apply Hn. lia.
Qed.

Lemma signature_at_length (b : bytes) (p : Z) :
  signature_at b p = true -> 0 <= p /\ p + 8 <= len b.
Proof.
  unfold signature_at. intros H. apply andb_true_iff in H as [Hp Hs].
  apply Z.leb_le in Hp. apply starts_with_length in Hs.
  rewrite length_skipn in Hs. cbn [List.length ntlmssp_sig] in Hs.
  unfold len. lia.
Qed.

Lemma signature_at_skipn (b : bytes) (start : Z) (k : nat) :
  0 <= start ->
  signature_at b (start + Z.of_nat k)
  = starts_with ntlmssp_sig (skipn k (skipn (Z.to_nat start) b)).
Proof.
  intros Hs. unfold signature_at. rewrite skipn_skipn.
  replace (Z.to_nat (start + Z.of_nat k)) with (k + Z.to_nat start)%nat by lia.
  destruct (Z.leb_spec 0 (start + Z.of_nat k)); [reflexivity|lia].
Qed.

(** [readbuff.find(ntlmssp_sig, start)] is the first position of the
    signature at or after [start], or -1 when there is none. *)
Lemma find_signature_spec (b : bytes) (start : Z) :
  0 <= start ->
  (find b ntlmssp_sig start None = -1 /\
   forall p, start <= p -> signature_at b p = false) \/
  (start <= find b ntlmssp_sig start None /\
   signature_at b (find b ntlmssp_sig start None) = true /\
   forall p, start <= p -> p < find b ntlmssp_sig start None ->
             signature_at b p = false).
Proof.
  intros Hs. unfold find, find_start.
  destruct (Z.ltb_spec start 0); [lia|].
  change (len ntlmssp_sig) with 8.
  assert (Hshort : forall p, len b - 8 < p -> signature_at b p = false).
  { intros p Hp. destruct (signature_at b p) eqn:E; [|reflexivity].
    apply signature_at_length in E. lia. }
  destruct (Z.ltb_spec (len b - start) 8) as [Hlt|Hge].
  - left. split; [reflexivity|]. intros p Hp. apply Hshort. lia.
  - destruct (search_spec ntlmssp_sig (Z.to_nat (len b - start - 8 + 1))
                          (skipn (Z.to_nat start) b) start)
      as [[Hr Hn]|(k & Hk & Hr & Hk' & Hn)].
    + left. split; [exact Hr|]. intros p Hp.
      destruct (Z_lt_le_dec (len b - 8) p); [now apply Hshort|].
      replace p with (start + Z.of_nat (Z.to_nat (p - start))) by lia.
      rewrite signature_at_skipn by lia. apply Hn. lia.
    + right. rewrite Hr. split; [lia|]. split.
      * now rewrite signature_at_skipn by lia.
      * intros p Hp Hlt.
        replace p with (start + Z.of_nat (Z.to_nat (p - start))) by lia.
        rewrite signature_at_skipn by lia. apply Hn. lia.
Qed.

(** Two occurrences of the signature do not overlap: the signature begins
    with a byte that it does not have elsewhere. *)
Lemma signature_no_overlap (b : bytes) (r p : Z) :
  signature_at b r = true -> r < p -> p < r + 8 ->
  signature_at b p = false.
Proof.
  intros Hr Hlo Hhi.
  pose proof (signature_at_length b r Hr) as [Hr0 Hlen].
  unfold signature_at in Hr. apply andb_true_iff in Hr as [_ Hr].
  apply starts_with_firstn in Hr. cbn [List.length ntlmssp_sig] in Hr.
  replace p with (r + Z.of_nat (Z.to_nat (p - r))) by lia.
  rewrite signature_at_skipn by lia.
  assert (Hk : (0 < Z.to_nat (p - r) < 8)%nat) by lia.
  revert Hk. generalize (Z.to_nat (p - r)). intros k Hk.
  rewrite <- (firstn_skipn 8 (skipn (Z.to_nat r) b)), Hr.
  do 8 (destruct k as [|k]; [try lia; reflexivity|]). lia.
Qed.

Section ScanFromStart.

Variable readbuff : bytes.

(** The buffer does not begin with the signature. *)
Hypothesis no_signature_at_0 : signature_at readbuff 0 = false.

Lemma next_offset_progress (offset : Z) :
  0 <= offset ->
  (offset <> 0 -> signature_at readbuff offset = true) ->
  (next_offset readbuff offset = -1 /\
   forall p, offset < p -> signature_at readbuff p = false) \/
  (offset < next_offset readbuff offset /\
   signature_at readbuff (next_offset readbuff offset) = true /\
   forall p, offset < p -> p < next_offset readbuff offset ->
             signature_at readbuff p = false).
Proof.
  intros Hoff Hsig. unfold next_offset, advance.
  change (len ntlmssp_sig) with 8.
  destruct (Z.eqb_spec offset 0) as [->|Hne]; cbn [negb].
  - destruct (find_signature_spec readbuff 0 ltac:(lia))
      as [[Hr Hn]|(Hle & Hs & Hn)].
    + left. split; [exact Hr|]. intros p Hp. apply Hn. lia.
    + right. split; [|split; [exact Hs|intros p Hp; apply Hn; lia]].
      destruct (Z.eq_dec (find readbuff ntlmssp_sig 0 None) 0) as [E|E];
        [|lia].
      rewrite E in Hs. congruence.
  - assert (Hgap : forall p, offset < p -> p < offset + 8 ->
                             signature_at readbuff p = false)
      by (intros p; apply signature_no_overlap; auto).
    destruct (find_signature_spec readbuff (offset + 8) ltac:(lia))
      as [[Hr Hn]|(Hle & Hs & Hn)].
    + left. split; [exact Hr|]. intros p Hp.
      destruct (Z_lt_le_dec p (offset + 8)); [now apply Hgap|now apply Hn].
    + right. split; [lia|]. split; [exact Hs|]. intros p Hp Hlt.
      destruct (Z_lt_le_dec p (offset + 8)); [now apply Hgap|now apply Hn].
Qed.

Lemma scan_loop_not_found (outfile : pystr) (verbose quiet : bool)
      (fuel : nat) (server_challenge : option bytes) :
  scan_loop readbuff outfile verbose quiet fuel (-1) server_challenge
  = ([], Finished).
Proof. now destruct fuel. Qed.

Lemma scan_loop_ends (outfile : pystr) (verbose quiet : bool) (fuel : nat) :
  forall (offset : Z) (server_challenge : option bytes),
    0 <= offset ->
    (offset <> 0 -> signature_at readbuff offset = true) ->
    offset <= len readbuff -> len readbuff < offset + Z.of_nat fuel ->
    snd (scan_loop readbuff outfile verbose quiet fuel offset server_challenge)
    = Finished \/
    exists e,
      snd (scan_loop readbuff outfile verbose quiet fuel offset
                     server_challenge) = Aborted e.
Proof.
  induction fuel as [|fuel IH]; intros offset sc Hoff Hsig Hle Hfuel; [lia|].
  cbn [scan_loop]. destruct (Z.eqb_spec offset (-1)); [lia|].
  destruct (loop_body_obs readbuff outfile verbose quiet offset sc)
    as [_ Hr].
  destruct (loop_body readbuff outfile verbose quiet offset sc) as [ev r].
  cbn [snd] in Hr. subst r.
  destruct (snd (check_message_types readbuff outfile verbose quiet
                   (next_offset readbuff offset) sc)) as [sc'|e];
    [|right; now exists e].
  destruct (next_offset_progress offset Hoff Hsig)
    as [[Hn _]|(Hlt & Hs & _)].
  - rewrite Hn, scan_loop_not_found. now left.
  - pose proof (signature_at_length _ _ Hs) as [_ Hlen].
    destruct (IH (next_offset readbuff offset) sc') as [E|[e E]];
      try lia; [auto| |].
    + destruct (scan_loop readbuff outfile verbose quiet fuel
                          (next_offset readbuff offset) sc'); now left.
    + destruct (scan_loop readbuff outfile verbose quiet fuel
                          (next_offset readbuff offset) sc');
        right; now exists e.
Qed.

(** While the loop is running, the offsets it has visited are those of
    [occurrences], one for each iteration. *)
Lemma scan_loop_running_offset (outfile : pystr) (verbose quiet : bool)
      (fuel : nat) :
  forall (offset : Z) (sc : option bytes) (o : Z) (sc' : option bytes),
    snd (scan_loop readbuff outfile verbose quiet fuel offset sc)
    = Running o sc' ->
    o = last (occurrences readbuff fuel offset) offset /\
    List.length (occurrences readbuff fuel offset) = fuel.
Proof.
  induction fuel as [|fuel IH]; intros offset sc o sc' H.
  - cbn in H. destruct (offset =? -1); [discriminate|].
    injection H as <- _. split; reflexivity.
  - cbn [scan_loop occurrences] in *.
    destruct (Z.eqb_spec offset (-1)); [discriminate|].
    destruct (loop_body_obs readbuff outfile verbose quiet offset sc)
      as [_ Hr].
    destruct (loop_body readbuff outfile verbose quiet offset sc) as [ev r].
    cbn [snd] in Hr. subst r.
    destruct (snd (check_message_types readbuff outfile verbose quiet
                     (next_offset readbuff offset) sc)) as [sc1|e];
      [|discriminate].
    destruct (scan_loop readbuff outfile verbose quiet fuel
                        (next_offset readbuff offset) sc1) as [ev' out] eqn:E.
    cbn [snd] in H. subst out.
    assert (Hne : next_offset readbuff offset <> -1).
    { intros Hn. rewrite Hn, scan_loop_not_found in E. discriminate E. }
    destruct (Z.eqb_spec (next_offset readbuff offset) (-1)); [contradiction|].
    destruct (IH (next_offset readbuff offset) sc1 o sc') as [Ho Hl];
      [now rewrite E|].
    split; [|cbn [List.length]; now rewrite Hl].
    rewrite Ho. cbn [last].
    destruct (occurrences readbuff fuel (next_offset readbuff offset))
      as [|x l] eqn:El; [reflexivity|].
    clear. revert x. induction l as [|y l IHl]; intros x; [reflexivity|].
    cbn [last] in *. apply IHl.
Qed.

(** A scan pass over a buffer that does not begin with the signature ends:
    the loop is left, or an exception ends the scan, within as many
    iterations as the buffer has bytes, and one more. *)
Lemma scan_terminates (outfile : pystr) (verbose quiet : bool) (fuel : nat) :
  (List.length readbuff < fuel)%nat ->
  snd (searchCaptureFile readbuff outfile verbose quiet fuel 0) = Finished \/
  exists e,
    snd (searchCaptureFile readbuff outfile verbose quiet fuel 0) = Aborted e.
Proof.
  intros Hfuel. apply scan_loop_ends; unfold len; try lia.
Qed.

Lemma occurrences_spec (fuel : nat) :
  forall offset : Z,
    0 <= offset ->
    (offset <> 0 -> signature_at readbuff offset = true) ->
    offset <= len readbuff -> len readbuff < offset + Z.of_nat fuel ->
    StronglySorted Z.lt (occurrences readbuff fuel offset) /\
    forall p, In p (occurrences readbuff fuel offset) <->
              offset < p /\ signature_at readbuff p = true.
Proof.
  induction fuel as [|fuel IH]; intros offset Hoff Hsig Hle Hfuel; [lia|].
  cbn [occurrences]. destruct (Z.eqb_spec offset (-1)); [lia|].
  destruct (next_offset_progress offset Hoff Hsig)
    as [[Hn Hnone]|(Hlt & Hs & Hnone)].
  - rewrite Hn. cbn. split; [constructor|].
    intros p. split; [intros []|]. intros [Hp Hsp].
    rewrite Hnone in Hsp by exact Hp. discriminate Hsp.
  - destruct (Z.eqb_spec (next_offset readbuff offset) (-1)); [lia|].
    pose proof (signature_at_length _ _ Hs) as [_ Hlen].
    destruct (IH (next_offset readbuff offset)) as [Hsorted Hin];
      try lia; [auto|].
    split.
    + constructor; [exact Hsorted|].
      apply Forall_forall. intros p Hp. now apply Hin in Hp.
    + intros p. cbn [In]. rewrite Hin. split.
      * intros [<-|[Hp Hsp]]; split; trivial; lia.
      * intros [Hp Hsp].
        destruct (Z_lt_le_dec p (next_offset readbuff offset)) as [Hlo|Hhi].
        -- rewrite Hnone in Hsp by assumption. discriminate Hsp.
        -- destruct (Z.eq_dec (next_offset readbuff offset) p);
             [now left|right; split; [lia|exact Hsp]].
Qed.

(** The offsets a scan pass visits in a buffer that does not begin with the
    signature strictly increase, and they are the positions of the
    signature, all of them. *)
Lemma occurrences_sorted_complete (fuel : nat) :
  (List.length readbuff < fuel)%nat ->
  StronglySorted Z.lt (occurrences readbuff fuel 0) /\
  forall p, In p (occurrences readbuff fuel 0) <->
            signature_at readbuff p = true.
Proof.
  intros Hfuel.
  destruct (occurrences_spec fuel 0) as [Hsorted Hin];
    unfold len; try lia.
  split; [exact Hsorted|]. intros p. rewrite Hin. split; [tauto|].
  intros Hp. split; [|exact Hp].
  pose proof (signature_at_length _ _ Hp) as [H0 _].
  destruct (Z.eq_dec p 0) as [->|]; [congruence|lia].
Qed.

End ScanFromStart.

(** ** A Type 2 message followed by a Type 3 message *)

Lemma scan_loop_step (readbuff : bytes) (outfile : pystr)
      (verbose quiet : bool) (fuel : nat) (offset : Z)
      (sc sc' : option bytes) (hs : list pystr) (fs : list (pystr * pystr)) :
  offset <> -1 ->
  obs (check_message_types readbuff outfile verbose quiet
                           (next_offset readbuff offset) sc)
  = (hs, fs, Ok sc') ->
  let rest := scan_loop readbuff outfile verbose quiet fuel
                        (next_offset readbuff offset) sc' in
  let r := scan_loop readbuff outfile verbose quiet (S fuel) offset sc in
  hash_lines (fst r) = hs ++ hash_lines (fst rest) /\
  file_appends (fst r) = fs ++ file_appends (fst rest) /\
  snd r = snd rest.
Proof.
  intros Hne E rest r. subst rest r. cbn [scan_loop].
  destruct (Z.eqb_spec offset (-1)); [contradiction|].
  destruct (loop_body_obs readbuff outfile verbose quiet offset sc)
    as [Hf Hr].
  destruct (loop_body readbuff outfile verbose quiet offset sc) as [ev res].
  cbn [fst snd] in Hf, Hr. unfold obs in E. injection E as Eh Ef Er.
  rewrite Er in Hr. subst ev res.
  destruct (scan_loop readbuff outfile verbose quiet fuel
                      (next_offset readbuff offset) sc') as [ev' o].
  cbn [fst snd]. now rewrite hash_lines_app, file_appends_app, Eh, Ef.
Qed.

Lemma check_message_types_not_found (readbuff : bytes) (outfile : pystr)
      (verbose quiet : bool) (sc : option bytes) :
  obs (check_message_types readbuff outfile verbose quiet (-1) sc)
  = ([], [], Ok sc).
Proof.
  rewrite check_message_types_obs. unfold after_type_2.
  now rewrite !check_ntlm_type_not_found.
Qed.

Lemma empty_domain (readbuff : bytes) (offset : Z) :
  0 <= offset ->
  domain_length (decode_type_3 readbuff offset) = 0 ->
  domain (decode_type_3 readbuff offset) = [].
Proof.
  intros Hoff. cbn [decode_type_3 domain_length domain]. intros ->.
  pose proof (decode_int_nonneg
    (slice readbuff (offset + 28 + 2 + 2) (offset + 28 + 2 + 2 + 4))).
  apply slice_backwards; lia.
Qed.

(** When the signatures of a buffer are a Type 2 message at [p2 > 0] and a
    Type 3 message at [p3] after it, the NTLM response is not empty, the
    text fields decode and no output file is asked for a record without
    domain, the scan pass prints exactly one record, its challenge segment
    the hex of the bytes at [p2 + 24 .. p2 + 32), and ends. *)
Lemma type2_type3_pair_record (readbuff : bytes) (outfile : pystr)
      (verbose quiet : bool) (fuel : nat) (p2 p3 : Z) (d u w : pystr) :
  let m := decode_type_3 readbuff p3 in
  0 < p2 -> p2 < p3 ->
  next_offset readbuff 0 = p2 ->
  next_offset readbuff p2 = p3 ->
  next_offset readbuff p3 = -1 ->
  check_ntlm_type readbuff ntlmssp_type_2 p2 = true ->
  check_ntlm_type readbuff ntlmssp_type_3 p3 = true ->
  ntlm_length m <> 0 ->
  decode_string (domain m) = Ok d ->
  decode_string (username m) = Ok u ->
  decode_string (workstation m) = Ok w ->
  (domain_length m = 0 -> outfile = []) ->
  let r := searchCaptureFile readbuff outfile verbose quiet (3 + fuel) 0 in
  hash_lines (fst r)
  = [record (if domain_length m =? 0 then None else Some d) u w
            (slice readbuff (p2 + 24) (p2 + 32))
            (ntproofstr m) (ntlmv2_response m)] /\
  snd r = Finished.
Proof.
  intros m Hp2 Hp3 N0 N2 N3 T2 T3 Hn Hd Hu Hw Hout r. subst r.
  unfold searchCaptureFile.
  set (ch := slice readbuff (p2 + 24) (p2 + 32)).
  set (h := record (if domain_length m =? 0 then None else Some d) u w ch
                   (ntproofstr m) (ntlmv2_response m)).
  assert (E3 : exists fs,
             obs (check_message_types readbuff outfile verbose quiet p3
                                      (Some ch)) = ([h], fs, Ok None)).
  { rewrite type_3_handled by assumption.
    destruct (type_3_obs readbuff outfile verbose quiet p3 (Some ch))
      as [E|(_ & _ & [E|[E|E]])]; fold m in E; try congruence.
    rewrite E, prepare_hash_obs. subst h.
    destruct (Z.eqb_spec (ntlm_length m) 0); [contradiction|].
    rewrite Hd, Hu, Hw.
    destruct (Z.eqb_spec (domain_length m) 0) as [Hz|Hz].
    - rewrite (Hout Hz). eexists. reflexivity.
    - eexists. reflexivity. }
  destruct E3 as [fs E3].
  destruct (scan_loop_step readbuff outfile verbose quiet (S (S fuel)) 0
              None (Some ch) [] [] ltac:(lia)) as (H1 & _ & R1).
  { rewrite N0. now apply type_2_sets_challenge. }
  destruct (scan_loop_step readbuff outfile verbose quiet (S fuel) p2
              (Some ch) None [h] fs ltac:(lia)) as (H2 & _ & R2).
  { rewrite N2. exact E3. }
  destruct (scan_loop_step readbuff outfile verbose quiet fuel p3
              None None [] [] ltac:(lia)) as (H3 & _ & R3).
  { rewrite N3. apply check_message_types_not_found. }
  rewrite N0 in H1, R1. rewrite N2 in H2, R2. rewrite N3 in H3, R3.
  rewrite scan_loop_not_found in H3, R3.
  change (3 + fuel)%nat with (S (S (S fuel))).
  rewrite H1, R1. cbn [app]. rewrite H2, R2, H3, R3. split; reflexivity.
Qed.

(** The shifted scenario is such a pair, for any number of iterations from
    3 on. *)
Lemma shifted_scenario_pair (verbose quiet : bool) (fuel : nat) :
  hash_lines
    (fst (searchCaptureFile shifted_scenario [] verbose quiet (3 + fuel) 0))
  = [scenario_record] /\
  snd (searchCaptureFile shifted_scenario [] verbose quiet (3 + fuel) 0)
  = Finished.
Proof.
  apply (type2_type3_pair_record shifted_scenario [] verbose quiet fuel
           1 101 [] (lit "bob") (lit "WS1"));
    try reflexivity; try lia.
  vm_compute. discriminate.
Qed.

(** * Further properties of the code *)

(** ** [decode_int] *)

Lemma byte_to_N_inj (x y : byte) : Byte.to_N x = Byte.to_N y -> x = y.
Proof.
  intros H. apply (f_equal Byte.of_N) in H.
  rewrite !Byte.of_to_N in H. now injection H.
Qed.

Lemma byte_to_Z_bounds (x : byte) : 0 <= Z.of_N (Byte.to_N x) <= 255.
Proof. pose proof (Byte.to_N_bounded x). lia. Qed.

Lemma decode_int_upper (b : bytes) : decode_int b < 256 ^ len b.
Proof.
  unfold len. induction b as [|x b IH]; [cbn; lia|].
  cbn [decode_int List.length]. rewrite Nat2Z.inj_succ, Z.pow_succ_r by lia.
  pose proof (byte_to_Z_bounds x). lia.
Qed.

(** X1: [decode_int] reads a byte string as a number below 256 to the power
    of its length, and two byte strings of one length that decode to the
    same number are the same. *)
Theorem decode_int_bounded_injective (a b : bytes) :
  0 <= decode_int a < 256 ^ len a /\
  (List.length a = List.length b -> decode_int a = decode_int b -> a = b).
Proof.
  split; [split; [apply decode_int_nonneg|apply decode_int_upper]|].
  revert b. induction a as [|x a IH]; intros [|y b] Hl He;
    try reflexivity; try discriminate.
  cbn [decode_int] in He. cbn [List.length] in Hl.
  pose proof (byte_to_Z_bounds x). pose proof (byte_to_Z_bounds y).
  assert (Z.of_N (Byte.to_N x) = Z.of_N (Byte.to_N y) /\
          decode_int a = decode_int b) as [Hx Ha] by lia.
  f_equal; [apply byte_to_N_inj; lia|apply IH; [lia|exact Ha]].
Qed.

Lemma decode_int_bounded_injective_witness :
  0 <= decode_int [x1a; x00] < 65536 /\
  forall b : bytes,
    List.length b = 2%nat -> decode_int b = 26 -> b = [x1a; x00].
Proof.
  split.
  - apply (decode_int_bounded_injective [x1a; x00] []).
  - intros b Hl He. symmetry.
    apply (decode_int_bounded_injective [x1a; x00] b);
      [symmetry; exact Hl|symmetry; exact He].
Defined.

(** ** The size of the fields *)

Lemma slice_length_le (b : bytes) (start n : Z) :
  0 <= start -> 0 <= n ->
  len (slice b start (start + n)) <= n.
Proof.
  intros. rewrite slice_range by lia. unfold len.
  pose proof (range_length_le b start (start + n - start)). lia.
Qed.

Lemma decode_int_slice_upper (b : bytes) (start n : Z) :
  0 <= start -> 0 <= n ->
  decode_int (slice b start (start + n)) < 256 ^ n.
Proof.
  intros Hs Hn.
  pose proof (decode_int_upper (slice b start (start + n))).
  pose proof (slice_length_le b start n Hs Hn).
  assert (0 <= len (slice b start (start + n))) by (unfold len; lia).
  assert (256 ^ len (slice b start (start + n)) <= 256 ^ n)
    by (apply Z.pow_le_mono_r; lia).
  lia.
Qed.

(** X2: in a Type 3 message every declared length is below 65536 and every
    declared offset below 2^32; a field never has more bytes than its
    declared length, the NT proof never more than 16, and the NTLMv2
    response never more than the declared length less 16. *)
Theorem type3_field_sizes (readbuff : bytes) (offset : Z) :
  0 <= offset ->
  let m := decode_type_3 readbuff offset in
  (0 <= domain_length m < 65536 /\ 0 <= domain_offset m < 4294967296) /\
  (0 <= username_length m < 65536 /\ 0 <= username_offset m < 4294967296) /\
  (0 <= workstation_length m < 65536 /\
   0 <= workstation_offset m < 4294967296) /\
  (0 <= ntlm_length m < 65536 /\ 0 <= ntlm_offset m < 4294967296) /\
  len (domain m) <= domain_length m /\
  len (username m) <= username_length m /\
  len (workstation m) <= workstation_length m /\
  len (ntproofstr m) <= 16 /\
  len (ntlmv2_response m) <= Z.max 0 (ntlm_length m - 16).
Proof.
  intros Hoff m.
  assert (H2 : forall pos, 0 <= pos ->
             0 <= decode_int (slice readbuff (offset + pos) (offset + pos + 2))
             < 65536).
  { intros pos Hp. split; [apply decode_int_nonneg|].
    apply (decode_int_slice_upper readbuff (offset + pos) 2); lia. }
  assert (H4 : forall pos, 0 <= pos ->
             0 <= decode_int (slice readbuff (offset + pos + 2 + 2)
                                    (offset + pos + 2 + 2 + 4))
             < 4294967296).
  { intros pos Hp. split; [apply decode_int_nonneg|].
    apply (decode_int_slice_upper readbuff (offset + pos + 2 + 2) 4); lia. }
  assert (Hf : forall o l, 0 <= o -> 0 <= l ->
             len (slice readbuff (offset + o) (offset + o + l)) <= l).
  { intros o l Ho Hl. apply slice_length_le; lia. }
  pose proof (H2 28 ltac:(lia)). pose proof (H4 28 ltac:(lia)).
  pose proof (H2 36 ltac:(lia)). pose proof (H4 36 ltac:(lia)).
  pose proof (H2 44 ltac:(lia)). pose proof (H4 44 ltac:(lia)).
  pose proof (H2 20 ltac:(lia)) as Hnl. pose proof (H4 20 ltac:(lia)) as Hno.
  subst m. cbn [decode_type_3 domain_length domain_offset domain
                username_length username_offset username workstation_length
                workstation_offset workstation ntlm_length ntlm_offset
                ntproofstr ntlmv2_response].
  repeat split; try lia; try (apply Hf; lia).
  set (l := decode_int (slice readbuff (offset + 20) (offset + 20 + 2))) in *.
  set (o := decode_int (slice readbuff (offset + 20 + 2 + 2)
                              (offset + 20 + 2 + 2 + 4))) in *.
  destruct (Z_lt_le_dec l 16).
  - rewrite slice_backwards by lia. cbn. lia.
  - replace (offset + o + l) with (offset + o + 16 + (l - 16)) by lia.
    pose proof (slice_length_le readbuff (offset + o + 16) (l - 16)
                                ltac:(lia) ltac:(lia)).
    lia.
Qed.

Lemma type3_field_sizes_witness :
  let m := decode_type_3 short_scenario 101 in
  ntlm_length m = 4 /\ len (ntproofstr m) <= 16 /\
  len (ntlmv2_response m) <= 0 /\ len (username m) <= username_length m.
Proof.
  intros m.
  destruct (type3_field_sizes short_scenario 101 ltac:(lia))
    as (_ & _ & _ & _ & _ & Hu & _ & Hp & Hr).
  split; [reflexivity|]. split; [exact Hp|]. split; [exact Hr|exact Hu].
Defined.

(** ** [bytes.hex()] in the record *)

Lemma hex_digit_inj (d d' : N) :
  (d < 16)%N -> (d' < 16)%N -> hex_digit d = hex_digit d' -> d = d'.
Proof.
  unfold hex_digit. intros Hd Hd'.
  destruct (N.ltb_spec d 10), (N.ltb_spec d' 10); lia.
Qed.

Lemma hex_digit_char (d : N) : (d < 16)%N -> hex_char (hex_digit d) = true.
Proof.
  intros Hd. unfold hex_char, hex_digit, in_range.
  destruct (N.ltb_spec d 10).
  - apply orb_true_iff. left. apply andb_true_iff.
    split; apply N.leb_le; lia.
  - apply orb_true_iff. right. apply andb_true_iff.
    split; apply N.leb_le; lia.
Qed.

Lemma byte_nibbles (x : byte) :
  (Byte.to_N x / 16 < 16)%N /\ (Byte.to_N x mod 16 < 16)%N.
Proof.
  pose proof (Byte.to_N_bounded x). split.
  - apply N.Div0.div_lt_upper_bound. lia.
  - apply N.mod_lt. lia.
Qed.

(** X3: the hexadecimal segments of a record are made of the digits
    [0-9a-f] only, so they hold no colon, have two digits for each byte,
    and are different for different bytes. *)
Theorem hex_segments (b b' : bytes) :
  List.length (hex b) = (2 * List.length b)%nat /\
  forallb hex_char (hex b) = true /\
  ~ In 58%N (hex b) /\
  (hex b = hex b' -> b = b').
Proof.
  assert (Hc : forall l, forallb hex_char (hex l) = true).
  { induction l as [|x l IH]; [reflexivity|].
    cbn [hex forallb]. destruct (byte_nibbles x) as [Hh Hl].
    now rewrite !hex_digit_char, IH by assumption. }
  split; [|split; [apply Hc|split]].
  - induction b as [|x b IH]; [reflexivity|].
    cbn [hex List.length]. rewrite IH. lia.
  - intros Hin. pose proof (Hc b) as Hall.
    rewrite forallb_forall in Hall. apply Hall in Hin. discriminate Hin.
  - revert b'. induction b as [|x b IH]; intros [|y b'] H;
      try reflexivity; try discriminate.
    cbn [hex] in H. injection H as Hh Hl Hr.
    destruct (byte_nibbles x) as [Hxh Hxl].
    destruct (byte_nibbles y) as [Hyh Hyl].
    apply hex_digit_inj in Hh, Hl; trivial.
    f_equal; [|now apply IH].
    apply byte_to_N_inj.
    rewrite (N.div_mod (Byte.to_N x) 16), (N.div_mod (Byte.to_N y) 16) by lia.
    now rewrite Hh, Hl.
Qed.

Lemma hex_segments_witness :
  List.length (hex challenge_0108) = 16%nat /\
  ~ In 58%N (hex challenge_0108) /\
  [x01; x02] = [x01; x02].
Proof.
  destruct (hex_segments challenge_0108 challenge_0108) as (Hl & _ & Hc & _).
  destruct (hex_segments [x01; x02] [x01; x02]) as (_ & _ & _ & Hi).
  split; [exact Hl|]. split; [exact Hc|]. apply Hi. reflexivity.
Defined.

(** ** [decode_string] *)

Lemma cons_char_ok (c : N) (r : result pystr) (s : pystr) :
  cons_char c r = Ok s -> exists s', r = Ok s' /\ s = c :: s'.
Proof.
  destruct r as [s'|e]; cbn; [|discriminate].
  intros [= <-]. now exists s'.
Qed.

Lemma utf8_decode_scalars_bounded (n : nat) :
  forall (b : bytes) (s : pystr),
    (List.length b <= n)%nat ->
    utf8_decode b = Ok s ->
    forallb scalar_value s = true /\ (List.length s <= List.length b)%nat.
Proof.
  induction n as [|n IH]; intros b s Hn E.
  - destruct b; [|cbn in Hn; lia]. cbn in E. injection E as <-.
    split; [reflexivity|cbn; lia].
  - destruct b as [|x0 r0]; [cbn in E; injection E as <-; split; cbn; lia|].
    cbn [utf8_decode] in E. cbn [List.length] in Hn.
    pose proof (Byte.to_N_bounded x0) as B0.
    unfold in_range, is_cont in E.
    repeat match type of E with
           | (if ?c then _ else _) = _ =>
               let C := fresh "C" in destruct c eqn:C
           | match ?l with [] => _ | _ :: _ => _ end = _ =>
               destruct l; cbn [List.length] in Hn
           | Raise _ = Ok _ => discriminate E
           end;
      apply cons_char_ok in E as (s' & E & ->);
      apply IH in E as [Hs Hl]; try lia;
      (split; [|cbn [List.length]; lia]);
      cbn [forallb]; rewrite Hs, andb_true_r;
      unfold scalar_value, in_range;
      repeat match goal with
             | H : (_ && _) = true |- _ => apply andb_true_iff in H as [? ?]
             | H : (_ <=? _)%N = true |- _ => apply N.leb_le in H
             | H : (_ <? _)%N = true |- _ => apply N.ltb_lt in H
             | H : (_ <? _)%N = false |- _ => apply N.ltb_ge in H
             | H : (_ =? _)%N = true |- _ => apply N.eqb_eq in H
             | H : (_ =? _)%N = false |- _ => apply N.eqb_neq in H
             | H : context [if (?a =? ?b)%N then _ else _] |- _ =>
                 destruct (N.eqb_spec a b)
             end;
      apply orb_true_iff;
      match goal with
      | |- (?c <? 55296)%N = true \/ _ =>
          destruct (N.ltb_spec c 55296); [now left|right];
          apply andb_true_iff; split; apply N.leb_le; lia
      end.
Qed.

(** X4: a text returned by [decode_string] has no NUL character, is made of
    Unicode scalar values, and has no more characters than the field has
    bytes. *)
Theorem decode_string_text (b : bytes) (s : pystr) :
  decode_string b = Ok s ->
  ~ In 0%N s /\
  forallb scalar_value s = true /\
  (List.length s <= List.length b)%nat.
Proof.
  unfold decode_string. destruct (utf8_decode b) as [s0|e] eqn:E;
    [|discriminate].
  intros [= <-].
  apply (utf8_decode_scalars_bounded (List.length b)) in E as [Hs Hl];
    [|lia].
  unfold strip_nul. split; [|split].
  - intros Hin. apply filter_In in Hin as [_ Hz]. discriminate Hz.
  - apply forallb_forall. intros c Hc. apply filter_In in Hc as [Hc _].
    rewrite forallb_forall in Hs. now apply Hs.
  - etransitivity; [apply filter_length_le|exact Hl].
Qed.

Lemma decode_string_text_witness :
  decode_string [x62; x00; xc3; xa9] = Ok [98%N; 233%N] /\
  ~ In 0%N [98%N; 233%N].
Proof.
  split; [reflexivity|].
  apply (decode_string_text [x62; x00; xc3; xa9] [98%N; 233%N]).
  reflexivity.
Defined.

(** ** The test of the message type *)

Lemma check_ntlm_type_iff (readbuff t : bytes) (offset : Z) :
  len t = 12 -> 0 <= offset ->
  check_ntlm_type readbuff t offset = true <-> range readbuff offset 12 = t.
Proof.
  intros Ht Hoff. split.
  - intros H. now apply check_ntlm_type_nonneg in H as [H _].
  - intros H. unfold range in H. change (Z.to_nat 12) with 12%nat in H.
    assert (Hlen : offset + 12 <= len readbuff).
    { apply (f_equal (@List.length byte)) in H.
      rewrite length_firstn, length_skipn in H. unfold len in *. lia. }
    assert (Hs : find_start offset (len readbuff) = offset).
    { unfold find_start. destruct (Z.ltb_spec offset 0); lia. }
    assert (He : find_end (offset + 12) (len readbuff) = offset + 12).
    { unfold find_end. rewrite Z.gtb_ltb.
      destruct (Z.ltb_spec (len readbuff) (offset + 12)); [lia|].
      destruct (Z.ltb_spec (offset + 12) 0); lia. }
    unfold check_ntlm_type, find. rewrite Ht, Hs, He.
    destruct (Z.ltb_spec (offset + 12 - offset) 12); [lia|].
    replace (Z.to_nat (offset + 12 - offset - 12 + 1)) with 1%nat by lia.
    rewrite search_one, firstn_starts_with.
    + rewrite Z.gtb_ltb. apply Z.ltb_lt. lia.
    + replace (List.length t) with 12%nat by (unfold len in Ht; lia).
      exact H.
Qed.

(** X5: at an offset of the buffer the test of a message type succeeds
    exactly when the 12 bytes there are the signature and the type number
    as a 4-byte little-endian integer; an offset that passes a test holds
    the signature, and passes one test at most. *)
Theorem message_type_tests (readbuff : bytes) (offset : Z) :
  0 <= offset ->
  (check_ntlm_type readbuff ntlmssp_type_1 offset = true <->
   range readbuff offset 12 = ntlmssp_sig ++ [x01; x00; x00; x00]) /\
  (check_ntlm_type readbuff ntlmssp_type_2 offset = true <->
   range readbuff offset 12 = ntlmssp_sig ++ [x02; x00; x00; x00]) /\
  (check_ntlm_type readbuff ntlmssp_type_3 offset = true <->
   range readbuff offset 12 = ntlmssp_sig ++ [x03; x00; x00; x00]) /\
  (forall t, In t [ntlmssp_type_1; ntlmssp_type_2; ntlmssp_type_3] ->
     check_ntlm_type readbuff t offset = true ->
     signature_at readbuff offset = true /\
     forall t', In t' [ntlmssp_type_1; ntlmssp_type_2; ntlmssp_type_3] ->
       check_ntlm_type readbuff t' offset = true -> t' = t).
Proof.
  intros Hoff.
  split; [now apply check_ntlm_type_iff|].
  split; [now apply check_ntlm_type_iff|].
  split; [now apply check_ntlm_type_iff|].
  assert (H12 : forall t,
             In t [ntlmssp_type_1; ntlmssp_type_2; ntlmssp_type_3] ->
             len t = 12 /\ firstn 8 t = ntlmssp_sig).
  { intros t [<-|[<-|[<-|[]]]]; split; reflexivity. }
  intros t Ht Hc. destruct (H12 t Ht) as [Hl Hsig]. split.
  - apply check_ntlm_type_nonneg in Hc as [Hc _]; trivial.
    unfold signature_at. apply andb_true_iff. split; [apply Z.leb_le; lia|].
    apply firstn_starts_with. cbn [List.length ntlmssp_sig].
    rewrite <- Hsig, <- Hc, firstn_firstn. reflexivity.
  - intros t' Ht' Hc'. destruct (H12 t' Ht') as [Hl' _].
    destruct (list_eq_dec Byte.byte_eq_dec t' t) as [E|E]; [exact E|].
    rewrite (check_ntlm_type_exclusive readbuff t' t offset) in Hc;
      trivial; discriminate.
Qed.

Lemma message_type_tests_witness :
  check_ntlm_type shifted_scenario ntlmssp_type_3 101 = true /\
  signature_at shifted_scenario 101 = true /\
  check_ntlm_type shifted_scenario ntlmssp_type_2 101 = false.
Proof.
  destruct (message_type_tests shifted_scenario 101 ltac:(lia))
    as (_ & _ & [_ H3] & Hex).
  assert (Hc : check_ntlm_type shifted_scenario ntlmssp_type_3 101 = true)
    by (apply H3; reflexivity).
  destruct (Hex ntlmssp_type_3 ltac:(cbn; auto) Hc) as [Hs Hu].
  split; [exact Hc|]. split; [exact Hs|].
  destruct (check_ntlm_type shifted_scenario ntlmssp_type_2 101) eqn:E;
    [|reflexivity].
  specialize (Hu ntlmssp_type_2 ltac:(cbn; auto) E). discriminate Hu.
Defined.

(** ** A buffer without the signature *)

Lemma check_message_types_at_end (readbuff : bytes) (outfile : pystr)
      (verbose quiet : bool) (sc : option bytes) :
  check_message_types readbuff outfile verbose quiet (-1) sc = ([], Ok sc).
Proof.
  unfold check_message_types.
  now rewrite !check_ntlm_type_not_found.
Qed.

(** X6: over a buffer in which the signature lies nowhere (the empty file
    is one) the scan pass makes one search, prints nothing at all, not even
    a diagnostic, writes nothing and ends. *)
Theorem no_signature_no_output (readbuff : bytes) (outfile : pystr)
        (verbose quiet : bool) (fuel : nat) :
  (forall p, signature_at readbuff p = false) ->
  searchCaptureFile readbuff outfile verbose quiet (S fuel) 0
  = ([], Finished) /\
  occurrences readbuff (S fuel) 0 = [].
Proof.
  intros Hnone.
  assert (Hn : next_offset readbuff 0 = -1).
  { unfold next_offset, advance. cbn [Z.eqb negb].
    destruct (find_signature_spec readbuff 0 ltac:(lia))
      as [[Hr _]|(_ & Hs & _)]; [exact Hr|].
    rewrite Hnone in Hs. discriminate Hs. }
  split.
  - unfold searchCaptureFile. cbn [scan_loop]. change (0 =? -1) with false.
    cbv iota. unfold loop_body. rewrite Hn, check_message_types_at_end.
    cbn [bind ret app]. now rewrite scan_loop_not_found.
  - cbn [occurrences]. change (0 =? -1) with false. cbv iota zeta.
    now rewrite Hn.
Qed.

Lemma no_signature_no_output_witness :
  searchCaptureFile [] (lit "hashes.txt") true false 1 0 = ([], Finished) /\
  searchCaptureFile [x4e; x54; x4c; x4d; x53; x53; x50] [] true false 1 0
  = ([], Finished).
Proof.
  split.
  - apply (no_signature_no_output [] (lit "hashes.txt") true false 0).
    intros p. destruct (signature_at [] p) eqn:E; [|reflexivity].
    apply signature_at_length in E. cbn in E. lia.
  - apply (no_signature_no_output [x4e; x54; x4c; x4d; x53; x53; x50] []
                                  true false 0).
    intros p.
    destruct (signature_at [x4e; x54; x4c; x4d; x53; x53; x50] p) eqn:E;
      [|reflexivity].
    apply signature_at_length in E. cbn in E. lia.
Defined.

(** ** The search loop from any offset *)

Lemma advance_nonneg (offset : Z) : 0 <= offset -> 0 <= advance offset.
Proof.
  intros H. unfold advance. change (len ntlmssp_sig) with 8.
  destruct (negb (offset =? 0)); lia.
Qed.

Lemma advance_cases (offset : Z) :
  (offset = 0 /\ advance offset = 0) \/
  (offset <> 0 /\ advance offset = offset + 8).
Proof.
  unfold advance. change (len ntlmssp_sig) with 8.
  destruct (Z.eqb_spec offset 0); cbn [negb]; auto.
Qed.

(** The next offset is the first position of the signature from the search
    position on. *)
Lemma next_offset_spec (readbuff : bytes) (offset : Z) :
  0 <= offset ->
  (next_offset readbuff offset = -1 /\
   forall p, advance offset <= p -> signature_at readbuff p = false) \/
  (advance offset <= next_offset readbuff offset /\
   next_offset readbuff offset + 8 <= len readbuff /\
   signature_at readbuff (next_offset readbuff offset) = true /\
   forall p, advance offset <= p -> p < next_offset readbuff offset ->
             signature_at readbuff p = false).
Proof.
  intros Hoff. unfold next_offset.
  destruct (find_signature_spec readbuff (advance offset)
                                (advance_nonneg offset Hoff))
    as [[Hr Hn]|(Hle & Hs & Hn)]; [left; auto|right].
  pose proof (signature_at_length _ _ Hs) as [_ Hl]. auto.
Qed.

Lemma next_offset_after (readbuff : bytes) (offset : Z) :
  0 <= offset ->
  (offset = 0 -> signature_at readbuff 0 = false) ->
  next_offset readbuff offset <> -1 ->
  offset < next_offset readbuff offset.
Proof.
  intros Hoff H0 Hne.
  destruct (next_offset_spec readbuff offset Hoff)
    as [[Hr _]|(Hle & _ & Hs & _)]; [contradiction|].
  destruct (advance_cases offset) as [[-> Ha]|[Hn Ha]]; rewrite Ha in Hle;
    [|lia].
  destruct (Z.eq_dec (next_offset readbuff 0) 0) as [E|E]; [|lia].
  rewrite E, H0 in Hs by reflexivity. discriminate Hs.
Qed.

Lemma scan_loop_ends_from (readbuff : bytes) (outfile : pystr)
      (verbose quiet : bool) (fuel : nat) :
  forall (offset : Z) (sc : option bytes),
    0 <= offset ->
    (offset = 0 -> signature_at readbuff 0 = false) ->
    len readbuff < offset + Z.of_nat fuel -> (0 < fuel)%nat ->
    snd (scan_loop readbuff outfile verbose quiet fuel offset sc) = Finished \/
    exists e,
      snd (scan_loop readbuff outfile verbose quiet fuel offset sc)
      = Aborted e.
Proof.
  induction fuel as [|fuel IH]; intros offset sc Hoff H0 Hfuel Hpos; [lia|].
  cbn [scan_loop]. destruct (Z.eqb_spec offset (-1)); [lia|].
  destruct (loop_body_obs readbuff outfile verbose quiet offset sc)
    as [_ Hr].
  destruct (loop_body readbuff outfile verbose quiet offset sc) as [ev r].
  cbn [snd] in Hr. subst r.
  destruct (snd (check_message_types readbuff outfile verbose quiet
                   (next_offset readbuff offset) sc)) as [sc'|e];
    [|right; now exists e].
  destruct (Z.eq_dec (next_offset readbuff offset) (-1)) as [Hn|Hn].
  - rewrite Hn, scan_loop_not_found. now left.
  - pose proof (next_offset_after readbuff offset Hoff H0 Hn) as Hlt.
    destruct (next_offset_spec readbuff offset Hoff)
      as [[Hr _]|(_ & Hlen & _)]; [contradiction|].
    destruct (IH (next_offset readbuff offset) sc') as [E|[e E]];
      try lia.
    + destruct (scan_loop readbuff outfile verbose quiet fuel
                          (next_offset readbuff offset) sc'); now left.
    + destruct (scan_loop readbuff outfile verbose quiet fuel
                          (next_offset readbuff offset) sc');
        right; now exists e.
Qed.

(** X7: a scan pass ends, by leaving the loop or by an exception, within
    one iteration more than the buffer has bytes, whenever it starts at a
    positive offset (a follow pass), or at offset 0 over a buffer that does
    not begin with the signature. *)
Theorem scan_pass_ends (readbuff : bytes) (outfile : pystr)
        (verbose quiet : bool) (fuel : nat) (offset : Z) :
  0 <= offset ->
  (offset = 0 -> signature_at readbuff 0 = false) ->
  (List.length readbuff < fuel)%nat ->
  snd (searchCaptureFile readbuff outfile verbose quiet fuel offset)
  = Finished \/
  exists e,
    snd (searchCaptureFile readbuff outfile verbose quiet fuel offset)
    = Aborted e.
Proof.
  intros Hoff H0 Hfuel. apply scan_loop_ends_from; trivial;
    unfold len; lia.
Qed.

Lemma scan_pass_ends_witness :
  snd (searchCaptureFile scenario [] false true 203 100) = Finished \/
  exists e,
    snd (searchCaptureFile scenario [] false true 203 100) = Aborted e.
Proof.
  apply (scan_pass_ends scenario [] false true 203 100).
  - lia.
  - intros H. discriminate H.
  - vm_compute. lia.
Defined.

(** X8: over a buffer that begins with the signature a scan pass from
    offset 0 never leaves the loop: after any number of iterations it is
    still at offset 0, unless an exception has ended it, and offset 0 is all
    it visits. *)
Theorem signature_at_start_never_ends (readbuff : bytes) (outfile : pystr)
        (verbose quiet : bool) (fuel : nat) :
  signature_at readbuff 0 = true ->
  ((exists sc,
      snd (searchCaptureFile readbuff outfile verbose quiet fuel 0)
      = Running 0 sc) \/
   (exists e,
      snd (searchCaptureFile readbuff outfile verbose quiet fuel 0)
      = Aborted e)) /\
  occurrences readbuff fuel 0 = repeat 0 fuel.
Proof.
  intros Hs.
  assert (Hn : next_offset readbuff 0 = 0).
  { destruct (next_offset_spec readbuff 0 ltac:(lia))
      as [[_ Hnone]|(Hle & _ & _ & Hnone)].
    - rewrite Hnone in Hs by (cbn; lia). discriminate Hs.
    - change (advance 0) with 0 in *.
      destruct (Z.eq_dec (next_offset readbuff 0) 0) as [E|E]; [exact E|].
      rewrite Hnone in Hs by lia. discriminate Hs. }
  split.
  - unfold searchCaptureFile. generalize (@None bytes).
    induction fuel as [|fuel IH]; intros sc; [left; now exists sc|].
    cbn [scan_loop]. change (0 =? -1) with false. cbv iota.
    destruct (loop_body_obs readbuff outfile verbose quiet 0 sc) as [_ Hr].
    destruct (loop_body readbuff outfile verbose quiet 0 sc) as [ev r].
    cbn [snd] in Hr. subst r. rewrite Hn.
    destruct (snd (check_message_types readbuff outfile verbose quiet 0 sc))
      as [sc'|e]; [|right; now exists e].
    destruct (IH sc') as [[sc2 E]|[e E]];
      destruct (scan_loop readbuff outfile verbose quiet fuel 0 sc');
      cbn [snd] in *; [left; now exists sc2|right; now exists e].
  - induction fuel as [|fuel IH]; [reflexivity|].
    cbn [occurrences repeat]. change (0 =? -1) with false. cbv iota zeta.
    rewrite Hn. change (0 =? -1) with false. cbv iota. now rewrite IH.
Qed.

Lemma signature_at_start_never_ends_witness :
  occurrences scenario 5 0 = [0; 0; 0; 0; 0].
Proof.
  apply (signature_at_start_never_ends scenario [] false true 5).
  reflexivity.
Defined.




Lemma occurrences_sound (readbuff : bytes) (fuel : nat) :
  forall (offset p : Z),
    0 <= offset ->
    In p (occurrences readbuff fuel offset) ->
    advance offset <= p /\ signature_at readbuff p = true.
Proof.
  induction fuel as [|fuel IH]; intros offset p Hoff Hin; [destruct Hin|].
  cbn [occurrences] in Hin. destruct (Z.eqb_spec offset (-1)); [lia|].
  cbv zeta in Hin.
  destruct (Z.eqb_spec (next_offset readbuff offset) (-1)); [destruct Hin|].
  destruct (next_offset_spec readbuff offset Hoff)
    as [[Hr _]|(Hle & _ & Hs & _)]; [contradiction|].
  pose proof (advance_nonneg offset Hoff).
  destruct Hin as [<-|Hin]; [auto|].
  apply IH in Hin as [Hp Hsp]; [|lia]. split; [|exact Hsp].
  destruct (advance_cases (next_offset readbuff offset)) as [[E0 E]|[_ E]];
    rewrite E in Hp; lia.
Qed.

(** X10: a follow pass, started at the length [offset > 0] of the file as
    it was read before, searches from [offset + 8]: however long it runs,
    every offset it visits holds the signature and is at least
    [offset + 8], so a message whose signature begins in the first 8 bytes
    appended to the file is not reported. *)
Theorem follow_pass_skips_eight_bytes (readbuff : bytes) (fuel : nat)
        (offset p : Z) :
  0 < offset ->
  (In p (occurrences readbuff fuel offset) ->
   offset + 8 <= p /\ signature_at readbuff p = true) /\
  (offset <= p < offset + 8 -> ~ In p (occurrences readbuff fuel offset)).
Proof.
  intros Hoff.
  assert (H : In p (occurrences readbuff fuel offset) ->
              offset + 8 <= p /\ signature_at readbuff p = true).
  { intros Hin. apply occurrences_sound in Hin as [Hp Hs]; [|lia].
    destruct (advance_cases offset) as [[? _]|[_ E]]; [lia|].
    rewrite E in Hp. auto. }
  split; [exact H|]. intros Hp Hin. apply H in Hin. lia.
Qed.

Lemma follow_pass_skips_eight_bytes_witness :
  signature_at scenario 100 = true /\
  ~ In 100 (occurrences scenario 203 (len type2_message)).
Proof.
  split; [reflexivity|].
  apply (follow_pass_skips_eight_bytes scenario 203 (len type2_message) 100);
    vm_compute; split; congruence.
Defined.

(** ** Two messages *)



(** ** What the flags change *)

Lemma scan_loop_unfold (readbuff : bytes) (outfile : pystr)
      (verbose quiet : bool) (fuel : nat) (offset : Z) (sc : option bytes) :
  offset <> -1 ->
  let step := check_message_types readbuff outfile verbose quiet
                                  (next_offset readbuff offset) sc in
  let r := scan_loop readbuff outfile verbose quiet (S fuel) offset sc in
  match snd step with
  | Ok sc' =>
      let rest := scan_loop readbuff outfile verbose quiet fuel
                            (next_offset readbuff offset) sc' in
      fst r = fst step ++ fst rest /\ snd r = snd rest
  | Raise e => fst r = fst step /\ snd r = Aborted e
  end.
Proof.
  intros Hne step r. subst step r. cbn [scan_loop].
  destruct (Z.eqb_spec offset (-1)); [contradiction|].
  destruct (loop_body_obs readbuff outfile verbose quiet offset sc)
    as [Hf Hr].
  destruct (loop_body readbuff outfile verbose quiet offset sc) as [ev res].
  cbn [fst snd] in Hf, Hr. subst ev res.
  destruct (snd (check_message_types readbuff outfile verbose quiet
                   (next_offset readbuff offset) sc)) as [sc'|e];
    [|split; reflexivity].
  cbv zeta.
  now destruct (scan_loop readbuff outfile verbose quiet fuel
                          (next_offset readbuff offset) sc').
Qed.

Lemma type_3_obs_verbose (readbuff : bytes) (outfile : pystr)
      (verbose verbose' quiet : bool) (offset : Z) (sc : option bytes) :
  obs (type_3 readbuff outfile verbose quiet offset sc)
  = obs (type_3 readbuff outfile verbose' quiet offset sc).
Proof.
  destruct (type_3_obs readbuff outfile verbose quiet offset sc)
    as [E|(Hq & E & Hd)];
    destruct (type_3_obs readbuff outfile verbose' quiet offset sc)
      as [E'|(Hq' & E' & Hd')]; try congruence.
  - rewrite E'. now apply type_3_decode_error.
  - rewrite E. symmetry. now apply type_3_decode_error.
Qed.

Lemma check_message_types_obs_verbose (readbuff : bytes) (outfile : pystr)
      (verbose verbose' quiet : bool) (offset : Z) (sc : option bytes) :
  obs (check_message_types readbuff outfile verbose quiet offset sc)
  = obs (check_message_types readbuff outfile verbose' quiet offset sc).
Proof.
  rewrite !check_message_types_obs.
  destruct (check_ntlm_type readbuff ntlmssp_type_3 offset); [|reflexivity].
  apply type_3_obs_verbose.
Qed.

(** X12: the [verbose] flag changes diagnostics only: the hash lines
    printed, the lines appended to the output file and the way the scan
    pass ends are the same with and without it. *)
Theorem verbose_changes_diagnostics_only (readbuff : bytes) (outfile : pystr)
        (quiet : bool) (fuel : nat) (offset : Z) :
  let r := searchCaptureFile readbuff outfile true quiet fuel offset in
  let r' := searchCaptureFile readbuff outfile false quiet fuel offset in
  hash_lines (fst r) = hash_lines (fst r') /\
  file_appends (fst r) = file_appends (fst r') /\
  snd r = snd r'.
Proof.
  unfold searchCaptureFile. cbv zeta. generalize (@None bytes).
  revert offset. induction fuel as [|fuel IH]; intros offset sc.
  - cbn. destruct (offset =? -1); repeat split.
  - destruct (Z.eq_dec offset (-1)) as [->|Hne]; [repeat split|].
    pose proof (scan_loop_unfold readbuff outfile true quiet fuel offset sc
                                 Hne) as H.
    pose proof (scan_loop_unfold readbuff outfile false quiet fuel offset sc
                                 Hne) as H'.
    pose proof (check_message_types_obs_verbose readbuff outfile true false
                  quiet (next_offset readbuff offset) sc) as E.
    cbv zeta in H, H'. unfold obs in E. injection E as Eh Ef Er.
    rewrite Er in H.
    destruct (snd (check_message_types readbuff outfile false quiet
                     (next_offset readbuff offset) sc)) as [sc'|e].
    + destruct H as [-> ->], H' as [-> ->].
      destruct (IH (next_offset readbuff offset) sc') as (Ih & If & Is).
      rewrite !hash_lines_app, !file_appends_app. now rewrite Eh, Ef, Ih, If.
    + destruct H as [-> ->], H' as [-> ->]. auto.
Qed.

Lemma quiet_check_message_types (readbuff : bytes) (outfile : pystr)
      (verbose : bool) (offset : Z) (sc : option bytes) :
  forallb quiet_event
    (fst (check_message_types readbuff outfile verbose true offset sc))
  = true.
Proof.
  unfold check_message_types, type_1, type_2, type_3, show_text, prepare_hash.
  generalize (decode_type_3 readbuff offset). intros m.
  cbn [negb when].
  destruct (check_ntlm_type readbuff ntlmssp_type_1 offset),
    (check_ntlm_type readbuff ntlmssp_type_2 offset),
    (check_ntlm_type readbuff ntlmssp_type_3 offset), sc;
    cbn [bind ret app fst snd];
    try reflexivity;
    destruct (ntlm_length m =? 0); try reflexivity;
    destruct (domain_length m =? 0);
    destruct (decode_string (domain m)),
      (decode_string (username m)),
      (decode_string (workstation m)),
      (nonempty outfile); reflexivity.
Qed.

(** X13: with [quiet] set a scan pass prints hash lines and blank lines
    and nothing else: no diagnostic of any kind, whatever the buffer
    holds. *)
Theorem quiet_prints_hashes_only (readbuff : bytes) (outfile : pystr)
        (verbose : bool) (fuel : nat) (offset : Z) :
  forallb quiet_event
    (fst (searchCaptureFile readbuff outfile verbose true fuel offset))
  = true.
Proof.
  unfold searchCaptureFile. generalize (@None bytes).
  revert offset. induction fuel as [|fuel IH]; intros offset sc.
  - cbn. now destruct (offset =? -1).
  - destruct (Z.eq_dec offset (-1)) as [->|Hne]; [reflexivity|].
    pose proof (scan_loop_unfold readbuff outfile verbose true fuel offset sc
                                 Hne) as H.
    pose proof (quiet_check_message_types readbuff outfile verbose
                  (next_offset readbuff offset) sc) as Hq.
    cbv zeta in H.
    destruct (snd (check_message_types readbuff outfile verbose true
                     (next_offset readbuff offset) sc)) as [sc'|e].
    + destruct H as [-> _]. rewrite forallb_app, Hq. apply IH.
    + destruct H as [-> _]. exact Hq.
Qed.

(** ** The output file *)

Lemma step_appends (readbuff : bytes) (outfile : pystr)
      (verbose quiet : bool) (offset : Z) (sc : option bytes)
      (path text : pystr) :
  let step := check_message_types readbuff outfile verbose quiet offset sc in
  In (path, text) (file_appends (fst step)) ->
  path = outfile /\ nonempty outfile = true /\
  exists h, text = h ++ [10%N] /\ In h (hash_lines (fst step)).
Proof.
  intros step. subst step.
  pose proof (check_message_types_obs readbuff outfile verbose quiet offset sc)
    as E.
  destruct (check_ntlm_type readbuff ntlmssp_type_3 offset).
  - destruct (type_3_obs readbuff outfile verbose quiet offset
                (after_type_2 readbuff offset sc)) as [E'|(_ & E' & _)];
      rewrite E' in E; clear E'.
    + rewrite prepare_hash_obs in E. unfold obs in E.
      set (m := decode_type_3 readbuff offset) in *.
      destruct (after_type_2 readbuff offset sc) as [challenge|];
        [|injection E as _ -> _; intros []].
      destruct (ntlm_length m =? 0); [injection E as _ -> _; intros []|].
      destruct (domain_length m =? 0).
      * destruct (decode_string (username m));
          [|injection E as _ -> _; intros []].
        destruct (decode_string (workstation m));
          injection E as _ -> _; intros [].
      * destruct (decode_string (domain m));
          [|injection E as _ -> _; intros []].
        destruct (decode_string (username m));
          [|injection E as _ -> _; intros []].
        destruct (decode_string (workstation m));
          [|injection E as _ -> _; intros []].
        cbv zeta in E. injection E as -> -> _.
        destruct (nonempty outfile) eqn:Ho; [|intros []].
        intros [[= <- <-]|[]]. repeat split. eexists. split; [reflexivity|].
        now left.
    + unfold obs in E. injection E as _ -> _. intros [].
  - unfold obs in E. injection E as _ -> _. intros [].
Qed.

(** X14: whatever a scan pass appends to a file, it appends to the
    configured output file, and each appended text is a hash line the pass
    has printed, followed by a newline; with no output file configured
    nothing is appended. *)
Theorem appended_lines_are_printed (readbuff : bytes) (outfile : pystr)
        (verbose quiet : bool) (fuel : nat) (offset : Z) :
  let r := searchCaptureFile readbuff outfile verbose quiet fuel offset in
  (forall path text,
     In (path, text) (file_appends (fst r)) ->
     path = outfile /\ outfile <> [] /\
     exists h, text = h ++ [10%N] /\ In h (hash_lines (fst r))) /\
  (outfile = [] -> file_appends (fst r) = []).
Proof.
  cbv zeta.
  assert (H : forall path text,
             In (path, text)
                (file_appends
                   (fst (searchCaptureFile readbuff outfile verbose quiet fuel
                                           offset))) ->
             path = outfile /\ nonempty outfile = true /\
             exists h, text = h ++ [10%N] /\
                       In h (hash_lines
                               (fst (searchCaptureFile readbuff outfile
                                       verbose quiet fuel offset)))).
  { unfold searchCaptureFile. generalize (@None bytes).
    revert offset. induction fuel as [|fuel IH]; intros offset sc path text.
    - cbn. destruct (offset =? -1); intros [].
    - destruct (Z.eq_dec offset (-1)) as [->|Hne]; [intros []|].
      pose proof (scan_loop_unfold readbuff outfile verbose quiet fuel offset
                                   sc Hne) as U.
      pose proof (step_appends readbuff outfile verbose quiet
                    (next_offset readbuff offset) sc path text) as S.
      cbv zeta in U, S.
      destruct (snd (check_message_types readbuff outfile verbose quiet
                       (next_offset readbuff offset) sc)) as [sc'|e].
      + destruct U as [-> _].
        rewrite file_appends_app, hash_lines_app, in_app_iff.
        intros [Hin|Hin].
        * destruct (S Hin) as (Hp & Ho & h & Ht & Hh).
          repeat split; trivial. exists h. rewrite in_app_iff. auto.
        * destruct (IH _ _ _ _ Hin) as (Hp & Ho & h & Ht & Hh).
          repeat split; trivial. exists h. rewrite in_app_iff. auto.
      + destruct U as [-> _]. exact S. }
  split.
  - intros path text Hin. destruct (H path text Hin) as (Hp & Ho & Hh).
    repeat split; trivial. intros ->. discriminate Ho.
  - intros Hempty.
    destruct (file_appends
                (fst (searchCaptureFile readbuff outfile verbose quiet fuel
                                        offset)))
      as [|[path text] l]; [reflexivity|].
    destruct (H path text) as (_ & Ho & _); [now left|].
    rewrite Hempty in Ho. discriminate Ho.
Qed.

Lemma appended_lines_are_printed_witness :
  file_appends (fst (searchCaptureFile domain_scenario [] false true 3 0))
  = [] /\
  forall path text,
    In (path, text)
       (file_appends
          (fst (searchCaptureFile domain_scenario (lit "hashes.txt") false true
                                  3 0))) ->
    path = lit "hashes.txt".
Proof.
  split.
  - apply (appended_lines_are_printed domain_scenario [] false true 3 0).
    reflexivity.
  - intros path text Hin.
    now apply (appended_lines_are_printed domain_scenario (lit "hashes.txt")
                 false true 3 0) in Hin.
Defined.

(** ** The command line *)

Lemma str_eqb_eq (a b : pystr) : str_eqb a b = true -> a = b.
Proof. unfold str_eqb. now destruct (list_eq_dec N.eq_dec a b). Qed.

Lemma str_in_disjoint (keys keys' : list pystr) (opt : pystr) :
  (forall k, In k keys -> str_in k keys' = false) ->
  str_in opt keys = true -> str_in opt keys' = false.
Proof.
  intros Hd H. unfold str_in in H. apply existsb_exists in H as (k & Hk & E).
  apply str_eqb_eq in E. subst k. now apply Hd.
Qed.

Ltac other_key :=
  match goal with
  | H : str_in ?opt ?K = true |- context [str_in ?opt ?K'] =>
      rewrite (str_in_disjoint K K' opt) by
        (trivial; intros ? [<-|[<-|[]]]; reflexivity)
  end.

Lemma process_opts_settings (opts : list (pystr * pystr)) :
  forall (s s' : settings) (ev : list main_print),
    process_opts opts s = (ev, inr s') ->
    ev = [] /\
    forallb (fun o => str_in (fst o) setting_keys) opts = true /\
    opt_infile s' = last_arg input_keys opts (opt_infile s) /\
    opt_outfile s' = last_arg output_keys opts (opt_outfile s) /\
    opt_verbose s' = opt_verbose s || has_opt verbose_keys opts /\
    opt_follow s' = opt_follow s || has_opt follow_keys opts /\
    opt_quiet s' = opt_quiet s || has_opt quiet_keys opts.
Proof.
  induction opts as [|[opt arg] opts IH]; intros s s' ev H.
  - cbn in H. injection H as <- <-. cbn. rewrite !orb_false_r. auto 10.
  - cbn [process_opts] in H.
    destruct (str_in opt help_keys) eqn:Eh; [discriminate|].
    unfold has_opt, setting_keys, str_in in *.
    cbn [forallb existsb last_arg fst]. rewrite !existsb_app.
    fold (str_in opt input_keys) (str_in opt output_keys)
         (str_in opt follow_keys) (str_in opt verbose_keys)
         (str_in opt quiet_keys) in *.
    destruct (str_in opt input_keys) eqn:Ei;
      [|destruct (str_in opt output_keys) eqn:Eo;
        [|destruct (str_in opt follow_keys) eqn:Ef;
          [|destruct (str_in opt verbose_keys) eqn:Ev;
            [|destruct (str_in opt quiet_keys) eqn:Eq;
              [|discriminate]]]]];
      repeat other_key;
      apply IH in H as (-> & Hall & Hi & Ho & Hv & Hf & Hq);
      cbn [opt_infile opt_outfile opt_verbose opt_follow opt_quiet] in *;
      unfold has_opt, setting_keys, str_in in *;
      rewrite Hall, Hi, Ho, Hv, Hf, Hq;
      cbn [orb andb]; rewrite ?orb_true_r; auto 10.
Qed.

Section MainProperties.

Variable getopt : list pystr -> option (list (pystr * pystr) * list pystr).
Variable path_exists : pystr -> bool.

(** X15: when [main] reaches the scan, the options were all recognised
    and none asked for help; the scan is given the argument of the last
    [-i] as input, which is not empty and exists, the argument of the last
    [-o] as output file, offset 0, and [verbose] only when [-q] was not
    given; and what was printed before is the banner (unless quiet), the
    "Searching" line, the "Writing output to" line (with an output file)
    and nothing else. *)
Theorem main_search_arguments (argv : list pystr) (ev : list main_print)
        (i o : pystr) (v f q : bool) (off : Z) :
  main getopt path_exists argv = (ev, Search i o v f q off) ->
  exists opts args,
    getopt argv = Some (opts, args) /\
    forallb (fun x => str_in (fst x) setting_keys) opts = true /\
    i = last_arg input_keys opts [] /\ i <> [] /\ path_exists i = true /\
    o = last_arg output_keys opts [] /\
    f = has_opt follow_keys opts /\
    q = has_opt quiet_keys opts /\
    v = (has_opt verbose_keys opts && negb q) /\
    off = 0 /\
    ev = (if q then [] else [Banner]) ++ [Searching i]
           ++ (if nonempty o then [WritingOutputTo o] else [])
           ++ [RegularWhite].
Proof.
  unfold main. destruct argv as [|a argv]; [discriminate|].
  destruct (getopt (a :: argv)) as [[opts args]|]; [|discriminate].
  destruct (process_opts opts default_settings) as [ev0 [st|s]] eqn:E;
    [discriminate|].
  apply process_opts_settings in E as (-> & Hall & Hi & Ho & Hv & Hf & Hq).
  cbn [default_settings opt_infile opt_outfile opt_verbose opt_follow
       opt_quiet orb app] in *.
  destruct (nonempty (opt_infile s)) eqn:Hne; cbn [negb]; [|discriminate].
  destruct (path_exists (opt_infile s)) eqn:Hex; cbn [negb]; [|discriminate].
  intros [= <- <- <- <- <- <- <-].
  exists opts, args. repeat split; trivial.
  - intros Hnil. rewrite Hnil in Hne. discriminate Hne.
  - rewrite Hv. now destruct (opt_quiet s), (has_opt verbose_keys opts).
Qed.

Lemma process_opts_help (before after : list (pystr * pystr))
      (h a : pystr) (s : settings) :
  forallb (fun x => str_in (fst x) setting_keys) before = true ->
  str_in h help_keys = true ->
  process_opts (before ++ (h, a) :: after) s
  = ([Banner; Usage; HelpOptions], inl 0).
Proof.
  revert s. induction before as [|[opt arg] before IH]; intros s Hb Hh.
  - cbn [app process_opts]. now rewrite Hh.
  - cbn [forallb fst] in Hb. apply andb_true_iff in Hb as [Ho Hb].
    cbn [app process_opts].
    assert (Hn : str_in opt help_keys = false).
    { destruct (str_in opt help_keys) eqn:E; [|reflexivity].
      apply (str_in_disjoint help_keys setting_keys) in E; [congruence|].
      intros k [<-|[<-|[]]]; reflexivity. }
    rewrite Hn.
    unfold setting_keys, str_in in Ho. rewrite !existsb_app in Ho.
    fold (str_in opt input_keys) (str_in opt output_keys)
         (str_in opt follow_keys) (str_in opt verbose_keys)
         (str_in opt quiet_keys) in Ho.
    destruct (str_in opt input_keys); [now apply IH|].
    destruct (str_in opt output_keys); [now apply IH|].
    destruct (str_in opt follow_keys); [now apply IH|].
    destruct (str_in opt verbose_keys); [now apply IH|].
    destruct (str_in opt quiet_keys); [now apply IH|discriminate Ho].
Qed.

(** X16: [main] does not scan when help is asked for or the input is
    missing.  With a help option after recognised options it prints the
    banner and the help and exits with status 0, whatever else is on the
    command line; with recognised options that name no input file, or one
    that does not exist, it prints the error and exits, also with status 0.
    And [main] never falls off the end: it exits or scans. *)
Theorem main_exits_without_scan (argv : list pystr)
        (opts : list (pystr * pystr)) (args : list pystr) :
  argv <> [] ->
  getopt argv = Some (opts, args) ->
  (forall before h a after,
     opts = before ++ (h, a) :: after ->
     forallb (fun x => str_in (fst x) setting_keys) before = true ->
     str_in h help_keys = true ->
     main getopt path_exists argv
     = ([Banner; Usage; HelpOptions], SysExit 0)) /\
  (forallb (fun x => str_in (fst x) setting_keys) opts = true ->
   (last_arg input_keys opts [] = [] ->
    main getopt path_exists argv = ([InputNotSpecified], SysExit 0)) /\
   (last_arg input_keys opts [] <> [] ->
    path_exists (last_arg input_keys opts []) = false ->
    main getopt path_exists argv = ([InputNotFound], SysExit 0))) /\
  snd (main getopt path_exists argv) <> Return.
Proof.
  intros Hargv Hg. unfold main.
  destruct argv as [|a0 argv]; [contradiction|]. rewrite Hg.
  split; [|split].
  - intros before h a after -> Hb Hh.
    now rewrite process_opts_help.
  - intros Hall.
    destruct (process_opts opts default_settings) as [ev0 [st|s]] eqn:E.
    + exfalso. clear -E Hall. revert E Hall. generalize default_settings.
      induction opts as [|[opt arg] opts IH]; intros s E Hall;
        [discriminate|].
      cbn [forallb fst] in Hall. apply andb_true_iff in Hall as [Ho Hall].
      cbn [process_opts] in E.
      assert (Hn : str_in opt help_keys = false).
      { destruct (str_in opt help_keys) eqn:Eh; [|reflexivity].
        apply (str_in_disjoint help_keys setting_keys) in Eh; [congruence|].
        intros k [<-|[<-|[]]]; reflexivity. }
      rewrite Hn in E.
      unfold setting_keys, str_in in Ho. rewrite !existsb_app in Ho.
      fold (str_in opt input_keys) (str_in opt output_keys)
           (str_in opt follow_keys) (str_in opt verbose_keys)
           (str_in opt quiet_keys) in Ho.
      destruct (str_in opt input_keys); [now apply IH in E|].
      destruct (str_in opt output_keys); [now apply IH in E|].
      destruct (str_in opt follow_keys); [now apply IH in E|].
      destruct (str_in opt verbose_keys); [now apply IH in E|].
      destruct (str_in opt quiet_keys); [now apply IH in E|discriminate Ho].
    + apply process_opts_settings in E as (-> & _ & Hi & _).
      cbn [default_settings opt_infile] in Hi. rewrite <- Hi. split.
      * intros ->. reflexivity.
      * intros Hne Hex.
        destruct (opt_infile s); [contradiction|]. cbn [nonempty negb].
        now rewrite Hex.
  - destruct (process_opts opts default_settings) as [ev0 [st|s]];
      [discriminate|].
    destruct (nonempty (opt_infile s)) eqn:Hne; cbn [negb]; [|discriminate].
    destruct (path_exists (opt_infile s)); cbn [negb]; discriminate.
Qed.

End MainProperties.

Lemma main_search_arguments_witness :
  let getopt := fun _ : list pystr =>
    Some ([(lit "-v", []); (lit "-i", lit "a.pcap"); (lit "-q", []);
           (lit "--input", lit "b.etl")], @nil pystr) in
  exists ev,
    main getopt (fun _ => true)
         [lit "-v"; lit "-i"; lit "a.pcap"; lit "-q"; lit "--input=b.etl"]
    = (ev, Search (lit "b.etl") [] false false true 0) /\
    ev = [Searching (lit "b.etl"); RegularWhite].
Proof.
  intros getopt. eexists. split; [reflexivity|].
  destruct (main_search_arguments getopt (fun _ => true)
              [lit "-v"; lit "-i"; lit "a.pcap"; lit "-q"; lit "--input=b.etl"]
              [Searching (lit "b.etl"); RegularWhite]
              (lit "b.etl") [] false false true 0 eq_refl)
    as (opts & args & _).
  reflexivity.
Defined.

Lemma main_exits_without_scan_witness :
  let getopt := fun _ : list pystr =>
    Some ([(lit "-q", []); (lit "-h", []); (lit "-i", lit "a.pcap")],
          @nil pystr) in
  main getopt (fun _ => true) [lit "-q"; lit "-h"; lit "-i"; lit "a.pcap"]
  = ([Banner; Usage; HelpOptions], SysExit 0) /\
  main (fun _ => Some ([(lit "-q", [])], [])) (fun _ => true) [lit "-q"]
  = ([InputNotSpecified], SysExit 0) /\
  main (fun _ => Some ([(lit "-i", lit "a.pcap")], [])) (fun _ => false)
       [lit "-i"; lit "a.pcap"]
  = ([InputNotFound], SysExit 0).
Proof.
  intros getopt. split; [|split].
  - destruct (main_exits_without_scan getopt (fun _ => true)
                [lit "-q"; lit "-h"; lit "-i"; lit "a.pcap"]
                [(lit "-q", []); (lit "-h", []); (lit "-i", lit "a.pcap")] []
                ltac:(discriminate) eq_refl) as (Hh & _ & _).
    apply (Hh [(lit "-q", [])] (lit "-h") [] [(lit "-i", lit "a.pcap")]);
      reflexivity.
  - destruct (main_exits_without_scan
                (fun _ => Some ([(lit "-q", [])], [])) (fun _ => true)
                [lit "-q"] [(lit "-q", [])] []
                ltac:(discriminate) eq_refl) as (_ & Hm & _).
    destruct (Hm eq_refl) as [H _]. apply H. reflexivity.
  - destruct (main_exits_without_scan
                (fun _ => Some ([(lit "-i", lit "a.pcap")], []))
                (fun _ => false)
                [lit "-i"; lit "a.pcap"] [(lit "-i", lit "a.pcap")] []
                ltac:(discriminate) eq_refl) as (_ & Hm & _).
    destruct (Hm eq_refl) as [_ H]. apply H; [discriminate|reflexivity].
Defined.

(** ** Follow passes *)

(** X17: a follow pass never visits an offset again: every offset of a pass
    started at the length of the file as the pass before read it lies at
    least 16 bytes after every offset that pass visited. *)
Theorem follow_pass_never_revisits (before after : bytes)
        (fuel fuel' : nat) (offset p p' : Z) :
  0 <= offset ->
  In p (occurrences before fuel offset) ->
  In p' (occurrences after fuel' (len before)) ->
  p + 16 <= p'.
Proof.
  intros Hoff Hp Hp'.
  apply occurrences_sound in Hp as [_ Hs]; [|exact Hoff].
  apply signature_at_length in Hs as [H0 Hlen].
  apply occurrences_sound in Hp' as [Ha _]; [|lia].
  destruct (advance_cases (len before)) as [[E _]|[_ E]]; [lia|].
  rewrite E in Ha. lia.
Qed.

Lemma follow_pass_never_revisits_witness :
  In 304 (occurrences (shifted_scenario ++ shifted_scenario) 10
                      (len shifted_scenario)) /\
  101 + 16 <= 304.
Proof.
  assert (H : In 304 (occurrences (shifted_scenario ++ shifted_scenario) 10
                                  (len shifted_scenario)))
    by (vm_compute; auto).
  split; [exact H|].
  apply (follow_pass_never_revisits shifted_scenario
           (shifted_scenario ++ shifted_scenario) 3 10 0 101 304);
    [lia|vm_compute; auto|exact H].
Defined.

(** ** One record for each challenge *)

Lemma type_3_hash_count (readbuff : bytes) (outfile : pystr)
      (verbose quiet : bool) (offset : Z) (sc : option bytes) :
  (List.length
     (hash_lines (fst (type_3 readbuff outfile verbose quiet offset sc)))
   <= match sc with Some _ => 1 | None => 0 end)%nat.
Proof.
  destruct (type_3_obs readbuff outfile verbose quiet offset sc)
    as [E|(_ & E & _)].
  - rewrite (obs_hash_lines _ _ E).
    pose proof (prepare_hash_obs outfile quiet (decode_type_3 readbuff offset)
                                 sc) as E'.
    apply (f_equal (fun o => fst (fst o))) in E'. cbn [obs fst] in E'.
    rewrite E'. destruct sc; [|cbn; lia].
    repeat match goal with
           | |- context [if ?c then _ else _] => destruct c
           | |- context [match decode_string ?x with _ => _ end] =>
               destruct (decode_string x)
           end; cbn; lia.
  - apply (f_equal (fun o => fst (fst o))) in E. cbn [obs fst] in E.
    rewrite E. cbn. lia.
Qed.

Lemma scan_loop_hash_count (readbuff : bytes) (outfile : pystr)
      (verbose quiet : bool) (fuel : nat) :
  forall (offset : Z) (sc : option bytes),
    (List.length
       (hash_lines (fst (scan_loop readbuff outfile verbose quiet fuel offset
                                   sc)))
     <= match sc with Some _ => 1 | None => 0 end
        + List.length (filter (check_ntlm_type readbuff ntlmssp_type_2)
                              (occurrences readbuff fuel offset)))%nat.
Proof.
  induction fuel as [|fuel IH]; intros offset sc.
  - cbn. destruct (offset =? -1); cbn; lia.
  - destruct (Z.eq_dec offset (-1)) as [->|Hne]; [cbn; lia|].
    pose proof (scan_loop_unfold readbuff outfile verbose quiet fuel offset sc
                                 Hne) as U.
    cbv zeta in U. cbn [occurrences].
    destruct (Z.eqb_spec offset (-1)); [contradiction|]. cbv zeta.
    set (r := next_offset readbuff offset) in *.
    pose proof (check_message_types_obs readbuff outfile verbose quiet r sc)
      as E.
    destruct (Z.eqb_spec r (-1)) as [Hr|Hr].
    + rewrite Hr in *. rewrite check_message_types_at_end in U.
      cbn [snd fst] in U. destruct U as [-> _].
      rewrite scan_loop_not_found. cbn. lia.
    + cbn [filter]. unfold after_type_2 in E.
      destruct (check_ntlm_type readbuff ntlmssp_type_2 r) eqn:T2.
      * rewrite (check_ntlm_type_exclusive readbuff ntlmssp_type_2
                   ntlmssp_type_3) in E by (trivial; discriminate).
        unfold obs in E. injection E as Eh _ Er. rewrite Er in U.
        destruct U as [-> _]. rewrite hash_lines_app, Eh. cbn [app List.length].
        specialize (IH r (Some (slice readbuff (r + 24) (r + 32)))).
        cbv beta iota in IH. destruct sc; lia.
      * destruct (check_ntlm_type readbuff ntlmssp_type_3 r).
        -- pose proof (type_3_hash_count readbuff outfile verbose quiet r sc)
             as Hc.
           rewrite <- (obs_hash_lines _ _ E) in Hc.
           pose proof (type_3_clears readbuff outfile verbose quiet r sc)
             as Hclear.
           rewrite <- (obs_result _ _ E) in Hclear.
           destruct (snd (check_message_types readbuff outfile verbose quiet
                            r sc)) as [sc'|e].
           ++ destruct U as [-> _]. rewrite hash_lines_app, length_app.
              rewrite (Hclear sc' eq_refl). specialize (IH r None).
              cbv beta iota in IH. lia.
           ++ destruct U as [-> _]. lia.
        -- unfold obs in E. injection E as Eh _ Er. rewrite Er in U.
           destruct U as [-> _]. rewrite hash_lines_app, Eh. cbn [app].
           apply IH.
Qed.

(** X18: a scan pass prints at most one hash line for each Type 2
    occurrence it visits: a challenge is used for one record at most. *)
Theorem one_record_for_each_challenge (readbuff : bytes) (outfile : pystr)
        (verbose quiet : bool) (fuel : nat) (offset : Z) :
  (List.length
     (hash_lines
        (fst (searchCaptureFile readbuff outfile verbose quiet fuel offset)))
   <= List.length (filter (check_ntlm_type readbuff ntlmssp_type_2)
                          (occurrences readbuff fuel offset)))%nat.
Proof.
  apply (scan_loop_hash_count readbuff outfile verbose quiet fuel offset None).
Qed.

(** ** A record without domain and an output file *)

(** X19: with an output file configured, a Type 3 occurrence that prints a
    record without domain (decoded domain length 0) prints it, appends
    nothing and raises NameError, which ends the scan pass there. *)
Theorem zero_domain_outfile_name_error (readbuff : bytes) (outfile : pystr)
        (verbose quiet : bool) (fuel : nat) (previous : Z)
        (challenge : bytes) (u w : pystr) :
  let offset := next_offset readbuff previous in
  let m := decode_type_3 readbuff offset in
  previous <> -1 -> 0 <= offset ->
  check_ntlm_type readbuff ntlmssp_type_3 offset = true ->
  outfile <> [] ->
  ntlm_length m <> 0 -> domain_length m = 0 ->
  decode_string (username m) = Ok u ->
  decode_string (workstation m) = Ok w ->
  let r := scan_loop readbuff outfile verbose quiet (S fuel) previous
                     (Some challenge) in
  hash_lines (fst r)
  = [record None u w challenge (ntproofstr m) (ntlmv2_response m)] /\
  file_appends (fst r) = [] /\
  snd r = Aborted NameError.
Proof.
  intros offset m Hprev Hoff T3 Hout Hn Hd Hu Hw r. subst r.
  assert (E : obs (check_message_types readbuff outfile verbose quiet offset
                                       (Some challenge))
              = ([record None u w challenge (ntproofstr m)
                         (ntlmv2_response m)], [], Raise NameError)).
  { rewrite type_3_handled by assumption.
    pose proof (empty_domain readbuff offset Hoff Hd) as Hdom. fold m in Hdom.
    destruct (type_3_obs readbuff outfile verbose quiet offset
                         (Some challenge)) as [E|(_ & _ & [E|[E|E]])];
      fold m in E; try congruence.
    - rewrite E, prepare_hash_obs. fold m.
      destruct (Z.eqb_spec (ntlm_length m) 0); [contradiction|].
      rewrite Hd, Hu, Hw. cbn [Z.eqb].
      destruct outfile; [contradiction|reflexivity].
    - rewrite Hdom in E. discriminate E. }
  pose proof (scan_loop_unfold readbuff outfile verbose quiet fuel previous
                               (Some challenge) Hprev) as U.
  cbv zeta in U. fold offset in U. unfold obs in E.
  injection E as Eh Ef Er. rewrite Er in U. destruct U as [-> ->].
  auto.
Qed.

Lemma zero_domain_outfile_name_error_witness :
  hash_lines
    (fst (scan_loop shifted_scenario (lit "hashes.txt") true false 1 1
                    (Some challenge_0108)))
  = [scenario_record] /\
  snd (scan_loop shifted_scenario (lit "hashes.txt") true false 1 1
                 (Some challenge_0108))
  = Aborted NameError.
Proof.
  destruct (zero_domain_outfile_name_error shifted_scenario (lit "hashes.txt")
              true false 0 1 challenge_0108 (lit "bob") (lit "WS1"))
    as (Hh & _ & Hr);
    try reflexivity; try discriminate.
  split; [exact Hh|exact Hr].
Defined.
